(** * localseek: the LLM enhancement pipeline (expansion, fusion, rerank, blend)

    A shallow embedding of [localseek/optional/expand.py],
    [localseek/optional/rerank.py] and [_rrf_merge] of [localseek/cli.py].

    Python strings are lists of Unicode code points ([list Z]).  Python
    floats are modelled as exact rationals [Q].  The Python builtins whose
    behaviour is given by the Unicode tables or by external algorithms
    ([str.isdigit], [str.lower], [float()], [hashlib]) are the methods of the
    class [PyRuntime]; the theorems hold for every instance of it. *)

From Stdlib Require Import ZArith QArith Qminmax Lqa List String Ascii Bool Permutation Sorted.
From stdpp Require Import base gmap list.

Import ListNotations.
Open Scope Z_scope.

Abbreviation pystr := (list Z).

Module Py.

(** A Rocq (ASCII) string literal as a Python string. *)
Definition lit (s : string) : pystr :=
  map (fun c => Z.of_nat (nat_of_ascii c)) (list_ascii_of_string s).

(** ["\n".join(ls)] for ASCII literals [ls]. *)
Fixpoint lines (ls : list string) : pystr :=
  match ls with
  | [] => []
  | [l] => lit l
  | l :: ls' => lit l ++ [10] ++ lines ls'
  end.

(** [str.isspace] on one character: CPython's [_PyUnicode_IsWhitespace]. *)
Definition isspace (c : Z) : bool :=
  ((9 <=? c) && (c <=? 13)) || ((28 <=? c) && (c <=? 32)) || (c =? 133)
  || (c =? 160) || (c =? 5760) || ((8192 <=? c) && (c <=? 8202))
  || (c =? 8232) || (c =? 8233) || (c =? 8239) || (c =? 8287) || (c =? 12288).

Fixpoint lstrip (s : pystr) : pystr :=
  match s with
  | [] => []
  | c :: r => if isspace c then lstrip r else s
  end.

(** [s.strip()] *)
Definition strip (s : pystr) : pystr := rev (lstrip (rev (lstrip s))).

(** [s.split(sep)] for a one-character separator. *)
Fixpoint split_on (sep : Z) (s : pystr) : list pystr :=
  match s with
  | [] => [[]]
  | c :: r =>
      let rest := split_on sep r in
      if c =? sep then [] :: rest
      else match rest with
           | [] => [[c]]
           | w :: ws => (c :: w) :: ws
           end
  end.

(** [s.split()]: runs of whitespace separate, empty words are dropped;
    [cur] is the current word, reversed. *)
Fixpoint split_ws_aux (cur : pystr) (s : pystr) : list pystr :=
  match s with
  | [] => match cur with [] => [] | _ => [rev cur] end
  | c :: r =>
      if isspace c then
        match cur with
        | [] => split_ws_aux [] r
        | _ => rev cur :: split_ws_aux [] r
        end
      else split_ws_aux (c :: cur) r
  end.

Definition split_ws (s : pystr) : list pystr := split_ws_aux [] s.

(** [s.replace(a, "")] and [s.replace(a, b)] for single characters. *)
Definition delete_char (a : Z) (s : pystr) : pystr :=
  List.filter (fun c => negb (c =? a)) s.

Definition replace_char (a b : Z) (s : pystr) : pystr :=
  map (fun c => if c =? a then b else c) s.

(** [c in chars] for a character [c]. *)
Definition in_chars (c : Z) (chars : pystr) : bool := existsb (Z.eqb c) chars.

(** Truthiness of a string. *)
Definition truthy (s : pystr) : bool :=
  match s with [] => false | _ => true end.

(** [l[:n]]: Python slicing, a negative [n] counts from the end. *)
Definition py_take {A} (n : Z) (l : list A) : list A :=
  if 0 <=? n then firstn (Z.to_nat n) l
  else firstn (Z.to_nat (Z.of_nat (length l) + n)) l.

(** [x or default] for an [Optional[int]]: [None] and [0] are falsy. *)
Definition py_or (x : option Z) (default : Z) : Z :=
  match x with
  | None => default
  | Some 0 => default
  | Some n => n
  end.

End Py.

Import Py.

(** Result of [float(token)]: a finite value, an infinity or NaN;
    [None] stands for the [ValueError] float raises. *)
Inductive pyfloat :=
| PFNum (q : Q)
| PFInf (negative : bool)
| PFNaN.

(** The Python builtins the pipeline relies on. *)
Class PyRuntime := {
  py_isdigit : Z -> bool;              (* str.isdigit on one character *)
  py_lower : pystr -> pystr;           (* str.lower *)
  sha256_hex : pystr -> pystr;         (* hashlib.sha256(s.encode()).hexdigest() *)
  md5_hex : pystr -> pystr;            (* hashlib.md5(s.encode()).hexdigest() *)
  py_float : pystr -> option pyfloat   (* float(s); None = ValueError *)
}.

(** [config.py]: the fields used by the pipeline. *)
Record Config := {
  expand_count : Z;
  rerank_topk : Z
}.

(** The two chat requests the pipeline sends; the message texts are
    rendered from these arguments ([EXPANSION_PROMPT], [RERANK_PROMPT]). *)
Inductive chat_request :=
| ExpansionChat (count : Z) (query : pystr)
| RerankChat (query : pystr) (docs : list (pystr * pystr)).

(** [llm_client.LLMClient]: [is_available()] is memoised per client, so it
    is one boolean; [chat] is the server's reply ([None] on any transport
    failure). *)
Record LLMClient := {
  is_available : bool;
  chat : chat_request -> option pystr
}.

(** ** expand.py *)
Module Expand.

(** A row of table [expansion_cache]. *)
Record exp_entry := {
  ee_query : pystr;
  ee_expansions : list pystr;
  ee_hit_count : Z
}.

Section Expand.
Context `{PyRuntime}.

(** [ExpansionCache.get]: a hit increments [hit_count]. *)
Definition cache_get (c : gmap pystr exp_entry) (h : pystr)
  : option (list pystr) * gmap pystr exp_entry :=
  match c !! h with
  | Some e =>
      (Some (ee_expansions e),
       <[h := {| ee_query := ee_query e; ee_expansions := ee_expansions e;
                 ee_hit_count := ee_hit_count e + 1 |}]> c)
  | None => (None, c)
  end.

(** [ExpansionCache.set]: [INSERT OR REPLACE], [hit_count] back to its
    default 0. *)
Definition cache_set (c : gmap pystr exp_entry) (h q : pystr) (exps : list pystr)
  : gmap pystr exp_entry :=
  <[h := {| ee_query := q; ee_expansions := exps; ee_hit_count := 0 |}]> c.

(** The characters of the literal ["-â€¢*"] as they are in the source file. *)
Definition bullet_chars : pystr := [45; 226; 8364; 162; 42].

(** The prefix removal of one (stripped, longer than 2) line. *)
Definition strip_marker (line : pystr) : pystr :=
  match line with
  | c0 :: c1 :: rest =>
      if py_isdigit c0 && in_chars c1 (lit ".):") then strip rest
      else if in_chars c0 bullet_chars then strip (c1 :: rest)
      else line
  | _ => line
  end.

(** The body of the parsing loop for one line of the response. *)
Definition parse_line (query line0 : pystr) : option pystr :=
  let line := strip line0 in
  if truthy line && (2 <? length line)%nat then
    let line := strip_marker line in
    if truthy line && negb (bool_decide (py_lower line = py_lower query))
    then Some line else None
  else None.

Definition parse_expansions (query response : pystr) : list pystr :=
  flat_map (fun l => match parse_line query l with Some x => [x] | None => [] end)
           (split_on 10 (strip response)).

(** [expand_query(query, count, cache)], returning the cache's new state. *)
Definition expand_query (cfg : Config) (client : LLMClient) (query : pystr)
    (count : option Z) (cache : option (gmap pystr exp_entry))
  : (list pystr * bool) * option (gmap pystr exp_entry) :=
  let count := py_or count (expand_count cfg) in
  let query_hash := sha256_hex (strip (py_lower query)) in
  let '(cached, cache) :=
    match cache with
    | Some c => let '(r, c') := cache_get c query_hash in (r, Some c')
    | None => (None, None)
    end in
  match cached with
  | Some ((_ :: _) as alts) => ((query :: alts, true), cache)
  | _ =>
      if negb (is_available client) then (([query], false), cache)
      else
        match chat client (ExpansionChat count query) with
        | None => (([query], false), cache)
        | Some [] => (([query], false), cache)
        | Some response =>
            let expansions := py_take count (parse_expansions query response) in
            let cache :=
              match cache, expansions with
              | Some c, _ :: _ => Some (cache_set c query_hash query expansions)
              | _, _ => cache
              end in
            ((query :: expansions, false), cache)
        end
  end.

End Expand.
End Expand.

(** ** rerank.py *)
Module Rerank.

(** A search-result dict as [rerank_results] reads it: every key is read
    with [doc.get(key, default)], so every field may be missing. *)
Record doc := {
  d_path : option pystr;
  d_title : option pystr;
  d_snippet : option pystr;
  d_score : option Q;
  d_collection : option pystr;
  d_full_path : option pystr;
  d_hash : option pystr
}.

(** [dataclass RerankResult] *)
Record RerankResult := {
  rr_path : pystr;
  rr_title : pystr;
  rr_snippet : pystr;
  rr_original_score : Q;
  rr_rerank_score : Q;
  rr_blended_score : Q;
  rr_collection : pystr;
  rr_full_path : pystr;
  rr_original_rank : Z
}.

(** A row of table [rerank_cache]. *)
Record rerank_entry := {
  re_query_hash : pystr;
  re_doc_hash : pystr;
  re_score : Q
}.

(** [dict.get(key, default)] *)
Definition get {A} (o : option A) (default : A) : A :=
  match o with Some x => x | None => default end.

(** [enumerate(l, start)] *)
Fixpoint enumerate_from {A} (start : nat) (l : list A) : list (nat * A) :=
  match l with
  | [] => []
  | x :: l' => (start, x) :: enumerate_from (S start) l'
  end.

Definition enumerate {A} (l : list A) : list (nat * A) := enumerate_from 0 l.

(** [min(a, b)]: the first argument unless the second is smaller. *)
Definition py_min (a b : Q) : Q := if negb (Qle_bool a b) then b else a.

(** [list.sort(key=key, reverse=True)]: a stable sort by descending key,
    elements with equal keys keep their order. *)
Fixpoint insert_desc {A} (key : A -> Q) (x : A) (l : list A) : list A :=
  match l with
  | [] => [x]
  | y :: ys => if Qle_bool (key y) (key x) then x :: y :: ys
               else y :: insert_desc key x ys
  end.

Fixpoint sort_desc {A} (key : A -> Q) (l : list A) : list A :=
  match l with
  | [] => []
  | x :: xs => insert_desc key x (sort_desc key xs)
  end.

(** The neutral score. *)
Definition neutral : Q := 5.0.

(** One line of the model's reply: the [try] body, scanning [reversed(parts)].
    A [ValueError] of [float(part)] leaves the loop and skips the line. *)
Fixpoint scan_parts `{PyRuntime} (parts : list pystr) : option Q :=
  match parts with
  | [] => None
  | part :: ps =>
      match py_float part with
      | None => None
      | Some (PFNum q) =>
          if Qle_bool 0 q && Qle_bool q 10 then Some q else scan_parts ps
      | Some _ => scan_parts ps
      end
  end.

Section Rerank.
Context `{PyRuntime}.

Definition line_score (line0 : pystr) : option Q :=
  let line := strip line0 in
  let parts := split_ws (replace_char 46 32 (delete_char 93 (delete_char 91 line))) in
  scan_parts (rev parts).

Definition parse_scores (response : pystr) : list Q :=
  flat_map (fun l => match line_score l with Some q => [q] | None => [] end)
           (split_on 10 (strip response)).

(** The [while len(scores) < len(docs)] padding, then [scores[:len(docs)]]. *)
Definition pad_scores (scores : list Q) (n : nat) : list Q :=
  firstn n (scores ++ replicate (n - length scores) neutral).

(** [_get_llm_scores(query, docs)] *)
Definition get_llm_scores (client : LLMClient) (query : pystr) (docs : list doc)
  : option (list Q) :=
  if negb (is_available client) then None
  else
    let doc_list :=
      map (fun d => (get (d_title d) (lit "Untitled"), firstn 200 (get (d_snippet d) [])))
          docs in
    match chat client (RerankChat query doc_list) with
    | None => None
    | Some [] => None
    | Some response => Some (pad_scores (parse_scores response) (length docs))
    end.

(** [doc.get("hash", md5(doc.get("snippet", "")))] *)
Definition doc_hash (d : doc) : pystr :=
  get (d_hash d) (md5_hex (get (d_snippet d) [])).

(** [RerankCache._make_key] *)
Definition make_key (query_hash doc_hash : pystr) : pystr :=
  sha256_hex (query_hash ++ lit ":" ++ doc_hash).

(** [RerankCache.get] *)
Definition cache_get (c : gmap pystr rerank_entry) (qh dh : pystr) : option Q :=
  option_map re_score (c !! make_key qh dh).

(** [RerankCache.set]: [INSERT OR REPLACE]. *)
Definition cache_set (c : gmap pystr rerank_entry) (qh dh : pystr) (score : Q)
  : gmap pystr rerank_entry :=
  <[make_key qh dh := {| re_query_hash := qh; re_doc_hash := dh; re_score := score |}]> c.

(** The cache lookup of one document ([if cache:] included). *)
Definition cached_score (cache : option (gmap pystr rerank_entry)) (qh : pystr) (d : doc)
  : option Q :=
  match cache with
  | Some c => cache_get c qh (doc_hash d)
  | None => None
  end.

(** One iteration of the cache-lookup loop: [(scores, cache_hits, uncached_indices)]. *)
Definition lookup_step (cache : option (gmap pystr rerank_entry)) (qh : pystr)
    (st : gmap nat Q * Z * list nat) (idoc : nat * doc) : gmap nat Q * Z * list nat :=
  let '(scores, hits, uncached) := st in
  let '(i, d) := idoc in
  match cached_score cache qh d with
  | Some s => (<[i := s]> scores, hits + 1, uncached)
  | None => (scores, hits, uncached ++ [i])
  end.

(** One iteration of [for idx, score in zip(uncached_indices, llm_scores)]. *)
Definition store_step (candidates : list doc) (qh : pystr)
    (st : gmap nat Q * option (gmap pystr rerank_entry)) (is : nat * Q)
  : gmap nat Q * option (gmap pystr rerank_entry) :=
  let '(scores, cache) := st in
  let '(idx, score) := is in
  (<[idx := score]> scores,
   match cache, candidates !! idx with
   | Some c, Some d => Some (cache_set c qh (doc_hash d) score)
   | _, _ => cache
   end).

(** The position-aware weight of the BM25 score. *)
Definition weight_bm25 (original_rank : Z) : Q :=
  if original_rank <=? 3 then 0.75
  else if original_rank <=? 10 then 0.60
  else 0.40.

(** One iteration of the blending loop. *)
Definition blend (scores : gmap nat Q) (idoc : nat * doc) : RerankResult :=
  let '(i, d) := idoc in
  let original_rank := Z.of_nat i + 1 in
  let original_score := get (d_score d) 0%Q in
  let rerank_score := (get (scores !! i) neutral / 10)%Q in
  let w := weight_bm25 original_rank in
  let norm_original := py_min (original_score / 15)%Q 1%Q in
  let blended := (w * norm_original + (1 - w) * rerank_score)%Q in
  {| rr_path := get (d_path d) [];
     rr_title := get (d_title d) [];
     rr_snippet := get (d_snippet d) [];
     rr_original_score := original_score;
     rr_rerank_score := get (scores !! i) neutral;
     rr_blended_score := blended;
     rr_collection := get (d_collection d) [];
     rr_full_path := get (d_full_path d) [];
     rr_original_rank := original_rank |}.

(** The scores after the model call, and the cache after its writes. *)
Definition score_uncached (client : LLMClient) (query qh : pystr) (candidates : list doc)
    (scores : gmap nat Q) (uncached : list nat) (cache : option (gmap pystr rerank_entry))
  : gmap nat Q * option (gmap pystr rerank_entry) :=
  match uncached with
  | [] => (scores, cache)
  | _ =>
      match get_llm_scores client query (omap (fun i => candidates !! i) uncached) with
      | Some ((_ :: _) as llm_scores) =>
          fold_left (store_step candidates qh) (combine uncached llm_scores) (scores, cache)
      | _ => (fold_left (fun sc idx => <[idx := neutral]> sc) uncached scores, cache)
      end
  end.

(** [rerank_results(query, results, topk, cache)]: the reranked list, the
    number of cache hits and the cache's new state. *)
Definition rerank_results (cfg : Config) (client : LLMClient) (query : pystr)
    (results : list doc) (topk : option Z) (cache : option (gmap pystr rerank_entry))
  : list RerankResult * Z * option (gmap pystr rerank_entry) :=
  let topk := py_or topk (rerank_topk cfg) in
  let candidates := py_take topk results in
  match candidates with
  | [] => ([], 0, cache)
  | _ =>
      let query_hash := sha256_hex (strip (py_lower query)) in
      let '(scores, cache_hits, uncached) :=
        fold_left (lookup_step cache query_hash) (enumerate candidates) (∅, 0, []) in
      let '(scores, cache) :=
        score_uncached client query query_hash candidates scores uncached cache in
      let reranked := map (blend scores) (enumerate candidates) in
      (sort_desc rr_blended_score reranked, cache_hits, cache)
  end.

End Rerank.
End Rerank.

(** ** cli.py: [_rrf_merge] *)
Module Fusion.

(** [search.SearchResult] *)
Record SearchResult := {
  sr_path : pystr;
  sr_title : pystr;
  sr_snippet : pystr;
  sr_score : Q;
  sr_collection : pystr;
  sr_full_path : pystr
}.

(** [f"{r.collection}:{r.path}"] *)
Definition result_key (r : SearchResult) : pystr :=
  sr_collection r ++ lit ":" ++ sr_path r.

(** The RRF constant [k]. *)
Definition rrf_k : Z := 60.

(** [(i % (len(results) // len(queries) + 1)) + 1] *)
Definition approx_rank (n_results n_queries i : nat) : Z :=
  Z.of_nat (i mod (n_results / n_queries + 1)) + 1.

(** The dicts [scores] and [result_map] share their keys and their insertion
    order: one association list [(key, score, first record)]. *)
Fixpoint add_score (k : pystr) (s : Q) (r : SearchResult)
    (acc : list (pystr * Q * SearchResult)) : list (pystr * Q * SearchResult) :=
  match acc with
  | [] => [(k, s, r)]
  | (k', s', r') :: acc' =>
      if bool_decide (k' = k) then (k', (s' + s)%Q, r') :: acc'
      else (k', s', r') :: add_score k s r acc'
  end.

Definition rrf_step (n_results n_queries : nat)
    (acc : list (pystr * Q * SearchResult)) (ir : nat * SearchResult)
  : list (pystr * Q * SearchResult) :=
  let '(i, r) := ir in
  let rank := approx_rank n_results n_queries i in
  add_score (result_key r) (1 / inject_Z (rrf_k + rank))%Q r acc.

(** [_rrf_merge(results, queries, limit)]; [None] is the
    [ZeroDivisionError] of [len(results) // len(queries)], which the loop
    only evaluates when [results] is non-empty. *)
Definition rrf_merge (results : list SearchResult) (queries : list pystr) (limit : Z)
  : option (list SearchResult) :=
  match queries, results with
  | [], [] => Some []
  | [], _ :: _ => None
  | _, _ =>
      let acc := fold_left (rrf_step (length results) (length queries))
                           (Rerank.enumerate results) [] in
      let sorted_keys := Rerank.sort_desc (fun e : pystr * Q * SearchResult => e.1.2) acc in
      Some (map (fun e : pystr * Q * SearchResult => e.2) (py_take limit sorted_keys))
  end.

End Fusion.

(** ** search.py, web/server.py and cli.py: the callers of the pipeline *)
Module Pipeline.
Import Expand Rerank Fusion.

(** [SearchResult.to_dict()]: the dict has no ["hash"] key. *)
Definition to_dict (r : SearchResult) : doc := {|
  d_path := Some (sr_path r);
  d_title := Some (sr_title r);
  d_snippet := Some (sr_snippet r);
  d_score := Some (sr_score r);
  d_collection := Some (sr_collection r);
  d_full_path := Some (sr_full_path r);
  d_hash := None
|}.

(** [searcher.search(q, limit=n)]: the index, the collection filter and
    [min_score] are fixed for the whole call, so a searcher is a function
    of the query and the limit. *)
Definition searcher : Type := pystr -> Z -> list SearchResult.

(** One iteration of the dedupe loop of [_do_search]:
    [(seen, unique_results)]. *)
Definition dedupe_step (st : gset pystr * list SearchResult) (r : SearchResult)
  : gset pystr * list SearchResult :=
  let '(seen, unique) := st in
  let key := result_key r in
  if bool_decide (key ∈ seen) then (seen, unique)
  else ({[key]} ∪ seen, unique ++ [r]).

Definition dedupe (all_results : list SearchResult) : list SearchResult :=
  (fold_left dedupe_step all_results (∅, [])).2.

(** The local results the two callers hold at the end: search hits, or
    the records of [rerank_results]. *)
Inductive shown :=
| Hits (rs : list SearchResult)
| Reranked (rs : list RerankResult).

(** [len(results)] *)
Definition shown_length (s : shown) : nat :=
  match s with Hits rs => length rs | Reranked rs => length rs end.

Section Pipeline.
Context `{PyRuntime}.

(** [_do_search] of web/server.py up to the reranking step (the web fetch
    and the summary do not change the results).  [ExpansionCache()] and
    [RerankCache()] open the persistent caches, passed here as [ecache] and
    [rcache]; the result is [(queries, results)] and the caches' new state. *)
Definition do_search (cfg : Config) (client : LLMClient) (search : searcher)
    (query : pystr) (limit : Z) (use_expand use_rerank : bool)
    (ecache : gmap pystr exp_entry) (rcache : gmap pystr rerank_entry)
  : (list pystr * shown) * gmap pystr exp_entry * gmap pystr rerank_entry :=
  let '(queries, ecache) :=
    if use_expand then
      let '((qs, _), c) := expand_query cfg client query (Some 2) (Some ecache) in
      (qs, get c ecache)
    else ([query], ecache) in
  let n := if use_rerank then limit * 2 else limit in
  let all_results := flat_map (fun q => search q n) queries in
  let results := py_take n (dedupe all_results) in
  match use_rerank, results with
  | true, _ :: _ =>
      let '(reranked, _, rc) :=
        rerank_results cfg client query (map to_dict results) (Some 20) (Some rcache) in
      let rcache := get rc rcache in
      match reranked with
      | [] => ((queries, Hits results), ecache, rcache)
      | _ => ((queries, Reranked (py_take limit reranked)), ecache, rcache)
      end
  | _, _ => ((queries, Hits (py_take limit results)), ecache, rcache)
  end.

(** [cmd_search] of cli.py up to the reranking step, with its arguments
    [limit], [--expand], [--rerank], [--cache], [--expand-count] and
    [--rerank-topk].  The result is
    [(queries, cache_hit_expansion, results, cache_hit_rerank)] and the
    caches' new state; [None] is an exception of [_rrf_merge]. *)
Definition cmd_search (cfg : Config) (client : LLMClient) (search : searcher)
    (query : pystr) (limit : Z) (use_expand use_rerank use_cache : bool)
    (expand_count rerank_topk : Z)
    (ecache : gmap pystr exp_entry) (rcache : gmap pystr rerank_entry)
  : option ((list pystr * bool * shown * Z) * gmap pystr exp_entry * gmap pystr rerank_entry) :=
  let '(queries, cache_hit_expansion, ecache) :=
    if use_expand then
      let '((qs, hit), c) :=
        expand_query cfg client query (Some expand_count)
                     (if use_cache then Some ecache else None) in
      (qs, hit, get c ecache)
    else ([query], false, ecache) in
  let n := if use_rerank then limit * 2 else limit in
  let all_results := flat_map (fun q => search q n) queries in
  let merged :=
    if (1 <? length queries)%nat then rrf_merge all_results queries n
    else Some (py_take n all_results) in
  match merged with
  | None => None
  | Some results =>
      match use_rerank, results with
      | true, _ :: _ =>
          let '(reranked, cache_hit_rerank, rc) :=
            rerank_results cfg client query (map to_dict results) (Some rerank_topk)
                           (if use_cache then Some rcache else None) in
          let rcache := get rc rcache in
          match reranked with
          | [] => Some ((queries, cache_hit_expansion, Hits results, cache_hit_rerank),
                        ecache, rcache)
          | _ => Some ((queries, cache_hit_expansion, Reranked (py_take limit reranked),
                        cache_hit_rerank), ecache, rcache)
          end
      | _, _ => Some ((queries, cache_hit_expansion, Hits (py_take limit results), 0),
                      ecache, rcache)
      end
  end.

End Pipeline.
End Pipeline.

(** ** A concrete runtime, for evaluating the code on examples *)
Module Concrete.

(** [str.isdigit] on ASCII characters. *)
Definition ascii_isdigit (c : Z) : bool := (48 <=? c) && (c <=? 57).

(** [str.lower] on ASCII characters. *)
Definition ascii_lower (s : pystr) : pystr :=
  map (fun c => if (65 <=? c) && (c <=? 90) then c + 32 else c) s.

(** A stand-in for the hex digests: the examples use no two texts whose
    digests collide, so the identity serves. *)
Definition digest_stub (s : pystr) : pystr := s.

Fixpoint digits_value (acc : Z) (s : pystr) : option Z :=
  match s with
  | [] => Some acc
  | c :: r => if ascii_isdigit c then digits_value (10 * acc + (c - 48)) r else None
  end.

(** [float()] on ASCII tokens of an optional sign and decimal digits (the
    only numeric tokens of the examples); every other token is refused. *)
Definition int_float (s0 : pystr) : option pyfloat :=
  let s := strip s0 in
  let num r sign :=
    match r with
    | [] => None
    | _ => option_map (fun z => PFNum (inject_Z (sign * z))) (digits_value 0 r)
    end in
  match s with
  | 45 :: r => num r (-1)
  | 43 :: r => num r 1
  | _ => num s 1
  end.

#[export] Instance ascii_runtime : PyRuntime := {|
  py_isdigit := ascii_isdigit;
  py_lower := ascii_lower;
  sha256_hex := digest_stub;
  md5_hex := digest_stub;
  py_float := int_float
|}.

Definition default_config : Config := {| expand_count := 2; rerank_topk := 20 |}.

(** A client that replies [reply] to every request. *)
Definition replying (reply : pystr) : LLMClient :=
  {| is_available := true; chat := fun _ => Some reply |}.

Definition offline : LLMClient :=
  {| is_available := false; chat := fun _ => None |}.

Local Open Scope string_scope.

(** Example candidates: the search hits A, B and C of spec §8. *)
Definition doc_of (name : string) (score : Q) : Rerank.doc := {|
  Rerank.d_path := Some (lit (name ++ ".md"));
  Rerank.d_title := Some (lit name);
  Rerank.d_snippet := Some (lit ("notes on " ++ name));
  Rerank.d_score := Some score;
  Rerank.d_collection := Some (lit "notes");
  Rerank.d_full_path := Some (lit ("/home/notes/" ++ name ++ ".md"));
  Rerank.d_hash := None
|}.

Definition cand_A := doc_of "A" 12.
Definition cand_B := doc_of "B" 8.
Definition cand_C := doc_of "C" 3.

Definition coffee : pystr := lit "coffee brewing".

(** The model answers relevance 9, 4 and 2. *)
Definition rerank_client : LLMClient := replying (lines ["9"; "4"; "2"]).

Definition dummy_rr : Rerank.RerankResult := {|
  Rerank.rr_path := []; Rerank.rr_title := []; Rerank.rr_snippet := [];
  Rerank.rr_original_score := 0; Rerank.rr_rerank_score := 0;
  Rerank.rr_blended_score := 0; Rerank.rr_collection := [];
  Rerank.rr_full_path := []; Rerank.rr_original_rank := 0
|}.

(** Two hits whose collection and path differ but whose
    [f"{collection}:{path}"] keys coincide: "a:b" / "c" and "a" / "b:c". *)
Definition search_hit (collection path : string) (score : Q) : Fusion.SearchResult := {|
  Fusion.sr_path := lit path;
  Fusion.sr_title := lit path;
  Fusion.sr_snippet := [];
  Fusion.sr_score := score;
  Fusion.sr_collection := lit collection;
  Fusion.sr_full_path := lit ("/" ++ collection ++ "/" ++ path)
|}.

Definition hit_ab_c := search_hit "a:b" "c" 5.
Definition hit_a_bc := search_hit "a" "b:c" 4.

(** An expansion cache holding two alternatives for "coffee brewing". *)
Definition coffee_entry : Expand.exp_entry := {|
  Expand.ee_query := coffee;
  Expand.ee_expansions := [lit "how to brew coffee"; lit "coffee making methods"];
  Expand.ee_hit_count := 0
|}.

Definition coffee_cache : gmap pystr Expand.exp_entry :=
  {[ digest_stub (strip (ascii_lower coffee)) := coffee_entry ]}.

End Concrete.

(** ** The spec's formulations, to be compared with the code *)
Module SpecModel.

(** §4.4: [weightLexical] by 1-based pre-rerank position. *)
Definition spec_weight (p : Z) : Q :=
  if (1 <=? p) && (p <=? 3) then 0.75
  else if (4 <=? p) && (p <=? 10) then 0.60
  else 0.40.

(** §4.4: [blendedScore] from position, lexical score and relevance in [0,10]. *)
Definition spec_blend (p : Z) (s r : Q) : Q :=
  (spec_weight p * Qmin (s / 15) 1 + (1 - spec_weight p) * (r / 10))%Q.

(** The amended rerank line rule: among the values of the tokens, the
    last one lying in [0,10]. *)
Definition in_range (v : pyfloat) : option Q :=
  match v with
  | PFNum q => if Qle_bool 0 q && Qle_bool q 10 then Some q else None
  | _ => None
  end.

Fixpoint last_some {A} (l : list (option A)) : option A :=
  match l with
  | [] => None
  | x :: l' => match last_some l' with Some y => Some y | None => x end
  end.

(** The tokens of a reply line after bracket deletion and ['.'] to space. *)
Definition score_tokens (line : pystr) : list pystr :=
  split_ws (replace_char 46 32 (delete_char 93 (delete_char 91 (strip line)))).

Section Amended.
Context `{PyRuntime}.

(** The amended expansion line rule: a trimmed line of at most two
    characters is dropped; a leading digit followed by '.', ')' or ':' is
    removed, otherwise a leading '-' or '*'; what remains is kept unless it
    is empty or equal to the query case-insensitively. *)
Definition spec_expansion_line (query line0 : pystr) : option pystr :=
  let line := strip line0 in
  if (length line <=? 2)%nat then None
  else
    let alt :=
      match line with
      | c0 :: c1 :: rest =>
          if py_isdigit c0 && in_chars c1 (lit ".):") then strip rest
          else if in_chars c0 [45; 42] then strip (c1 :: rest)
          else line
      | _ => line
      end in
    match alt with
    | [] => None
    | _ => if bool_decide (py_lower alt = py_lower query) then None else Some alt
    end.

End Amended.
End SpecModel.

(** * Properties *)

(** ** Generic facts on the Python list helpers *)
Module ListFacts.
Import Rerank.

Lemma insert_desc_perm {A} (key : A -> Q) (x : A) (l : list A) :
  Permutation (insert_desc key x l) (x :: l).
Proof.
  induction l as [|y l IH]; simpl; [done|].
  destruct (Qle_bool (key y) (key x)); [done|].
  rewrite IH. apply perm_swap.
Qed.

Lemma sort_desc_perm {A} (key : A -> Q) (l : list A) :
  Permutation (sort_desc key l) l.
Proof.
  induction l as [|x l IH]; simpl; [done|].
  rewrite insert_desc_perm, IH. done.
Qed.

Lemma enumerate_from_In {A} (k i : nat) (x : A) (l : list A) :
  In (i, x) (enumerate_from k l) <-> exists j, i = (k + j)%nat /\ l !! j = Some x.
Proof.
  revert k; induction l as [|y l IH]; intros k; simpl.
  - split; [done|]. intros (j & _ & Hj). done.
  - rewrite IH. split.
    + intros [Heq | (j & -> & Hj)].
      * inversion Heq; subst. exists 0%nat. split; [lia|done].
      * exists (S j). split; [lia|done].
    + intros (j & -> & Hj). destruct j as [|j].
      * left. simpl in Hj. inversion Hj. f_equal. lia.
      * right. exists j. split; [lia|done].
Qed.

Lemma enumerate_In {A} (i : nat) (x : A) (l : list A) :
  In (i, x) (enumerate l) <-> l !! i = Some x.
Proof.
  unfold enumerate. rewrite enumerate_from_In. split.
  - intros (j & -> & Hj). done.
  - intros Hi. exists i. done.
Qed.

Lemma length_enumerate_from {A} (k : nat) (l : list A) :
  length (enumerate_from k l) = length l.
Proof. revert k; induction l; intros k; simpl; auto. Qed.

Lemma flat_map_ext_in {A B} (f g : A -> list B) (l : list A) :
  (forall x, In x l -> f x = g x) -> flat_map f l = flat_map g l.
Proof.
  induction l as [|x l IH]; intros Hfg; simpl; [done|].
  rewrite (Hfg x (or_introl eq_refl)), IH; [done|]. intros y Hy. apply Hfg. right. done.
Qed.

Lemma py_min_Qmin (a b : Q) : py_min a b = Qmin a b.
Proof.
  unfold py_min, Qmin, GenericMinMax.gmin.
  destruct (Qle_bool a b) eqn:E; simpl.
  - apply Qle_bool_iff in E.
    destruct (a ?= b)%Q eqn:C; [done|done|].
    apply Qgt_alt in C. exfalso. apply (Qlt_not_le b a); done.
  - destruct (a ?= b)%Q eqn:C; [| |done]; exfalso.
    + apply Qeq_alt in C. assert (a <= b)%Q as Hle by (rewrite C; apply Qle_refl).
      apply Qle_bool_iff in Hle. congruence.
    + apply Qlt_alt in C. apply Qlt_le_weak, Qle_bool_iff in C. congruence.
Qed.

End ListFacts.

(** ** Expansion stage *)
Module ExpandProps.
Import Expand.

Section ExpandProps.
Context `{PyRuntime}.

(** [C1] Whatever the cache holds and whatever the model does (hit, success,
    server unavailable, empty or failed reply), the query list returned by
    [expand_query] is non-empty and starts with the query unchanged. *)
Theorem expand_query_first_is_query (cfg : Config) (client : LLMClient) (query : pystr)
    (count : option Z) (cache : option (gmap pystr exp_entry)) :
  exists rest, (expand_query cfg client query count cache).1.1 = query :: rest.
Proof.
  unfold expand_query.
  destruct cache as [c|]; [destruct (cache_get c _) as [r c']|]; simpl;
    repeat case_match; simpl; eauto.
Qed.

(** A hit on a non-empty entry answers from the cache alone and only bumps
    the entry's hit count. *)
Lemma expand_query_hit (cfg : Config) (client : LLMClient) (query : pystr)
    (count : option Z) (c : gmap pystr exp_entry) (e : exp_entry) :
  c !! sha256_hex (strip (py_lower query)) = Some e ->
  ee_expansions e <> [] ->
  expand_query cfg client query count (Some c)
  = ((query :: ee_expansions e, true),
     Some (<[sha256_hex (strip (py_lower query)) :=
              {| ee_query := ee_query e; ee_expansions := ee_expansions e;
                 ee_hit_count := ee_hit_count e + 1 |}]> c)).
Proof.
  intros Hc Hne. unfold expand_query, cache_get. rewrite Hc. simpl.
  destruct (ee_expansions e) as [|x xs]; [done|]. reflexivity.
Qed.

(** Every entry of the expansion cache holds at least one alternative. *)
Definition entries_nonempty (c : gmap pystr exp_entry) : Prop :=
  forall h e, c !! h = Some e -> ee_expansions e <> [].

(** [expand_query] only stores non-empty alternative lists, so a cache filled
    by it has no empty entry: a populated fingerprint always hits. *)
Lemma expand_query_entries_nonempty (cfg : Config) (client : LLMClient) (query : pystr)
    (count : option Z) (c : gmap pystr exp_entry) :
  entries_nonempty c ->
  match (expand_query cfg client query count (Some c)).2 with
  | Some c' => entries_nonempty c'
  | None => False
  end.
Proof.
  intros Hinv. unfold expand_query, cache_get.
  assert (Hbump : forall h e, c !! h = Some e ->
            entries_nonempty (<[h := {| ee_query := ee_query e; ee_expansions := ee_expansions e;
                                        ee_hit_count := ee_hit_count e + 1 |}]> c)).
  { intros h e He h' e'. destruct (decide (h = h')) as [<-|Hne].
    - rewrite lookup_insert_eq. intros [= <-]. simpl. eapply Hinv; eauto.
    - rewrite lookup_insert_ne by done. apply Hinv. }
  destruct (c !! _) as [e|] eqn:He; simpl.
  - specialize (Hbump _ _ He).
    destruct (ee_expansions e) as [|x xs] eqn:Hx; [|exact Hbump].
    exfalso. eapply Hinv; eauto.
  - destruct (is_available client); simpl; [|done].
    destruct (chat client _) as [[|x r]|]; simpl; try done.
    destruct (py_take _ _) as [|y ys] eqn:Ht; simpl; [done|].
    intros h' e'. unfold cache_set.
    destruct (decide (sha256_hex (strip (py_lower query)) = h')) as [<-|Hne].
    + rewrite lookup_insert_eq. intros [= <-]. simpl. done.
    + rewrite lookup_insert_ne by done. apply Hinv.
Qed.

(** [C10] On a cache hit the [count] argument plays no part: the result is
    the query followed by all cached alternatives, however many. *)
Theorem expand_hit_ignores_count (cfg : Config) (client : LLMClient) (query : pystr)
    (count : option Z) (c : gmap pystr exp_entry) (e : exp_entry)
    (Hhit : c !! sha256_hex (strip (py_lower query)) = Some e)
    (Hne : ee_expansions e <> []) :
  (expand_query cfg client query count (Some c)).1 = (query :: ee_expansions e, true).
Proof. rewrite (expand_query_hit cfg client query count c e Hhit Hne). reflexivity. Qed.

(** [C8] Two calls with the same query against a cache holding an entry
    for its fingerprint (entries are never empty, see
    [expand_query_entries_nonempty]) return the same alternatives, and
    both report a cache hit, whatever the model and the counts. *)
Theorem expand_cache_idempotent (cfg : Config) (client1 client2 : LLMClient)
    (query : pystr) (count1 count2 : option Z) (c : gmap pystr exp_entry) (e : exp_entry)
    (Hhit : c !! sha256_hex (strip (py_lower query)) = Some e)
    (Hne : ee_expansions e <> []) :
  let '(r1, c1) := expand_query cfg client1 query count1 (Some c) in
  let '(r2, _) := expand_query cfg client2 query count2 c1 in
  r1 = (query :: ee_expansions e, true) /\ r2 = r1 /\ r2.2 = true.
Proof.
  rewrite (expand_query_hit cfg client1 query count1 c e Hhit Hne).
  rewrite (expand_query_hit cfg client2 query count2 _
             {| ee_query := ee_query e; ee_expansions := ee_expansions e;
                ee_hit_count := ee_hit_count e + 1 |});
    [| apply lookup_insert_eq | done].
  simpl. done.
Qed.

End ExpandProps.
End ExpandProps.

(** ** Parsing the model's replies *)
Module ParseProps.
Import Expand Rerank SpecModel.

Fixpoint first_some {A} (l : list (option A)) : option A :=
  match l with
  | [] => None
  | Some y :: _ => Some y
  | None :: l' => first_some l'
  end.

Lemma first_some_app {A} (a b : list (option A)) :
  first_some (a ++ b) = match first_some a with Some y => Some y | None => first_some b end.
Proof. induction a as [|[x|] a IH]; simpl; auto. Qed.

Lemma last_some_rev {A} (l : list (option A)) : last_some l = first_some (rev l).
Proof.
  induction l as [|x l IH]; simpl; [done|].
  rewrite first_some_app, <- IH. destruct (last_some l); [done|].
  destruct x; done.
Qed.

Lemma in_bullets_agree (c : Z) :
  ~ In c [8226; 226; 8364; 162] -> in_chars c bullet_chars = in_chars c [45; 42].
Proof.
  intros Hc. unfold in_chars, bullet_chars. simpl.
  destruct (Z.eqb_spec c 226); [subst; simpl in Hc; tauto|].
  destruct (Z.eqb_spec c 8364); [subst; simpl in Hc; tauto|].
  destruct (Z.eqb_spec c 162); [subst; simpl in Hc; tauto|].
  simpl. rewrite !orb_false_r. done.
Qed.

Section ParseProps.
Context `{PyRuntime}.

Lemma keep_alt (query alt : pystr) :
  (if truthy alt && negb (bool_decide (py_lower alt = py_lower query)) then Some alt else None)
  = match alt with
    | [] => None
    | _ :: _ => if bool_decide (py_lower alt = py_lower query) then None else Some alt
    end.
Proof. destruct alt; [done|]. simpl. destruct (bool_decide _); done. Qed.

Lemma parse_line_amended (query l : pystr) :
  match strip l with c :: _ => ~ In c [8226; 226; 8364; 162] | [] => True end ->
  parse_line query l = spec_expansion_line query l.
Proof.
  intros Hc. unfold parse_line, spec_expansion_line.
  destruct (strip l) as [|c0 [|c1 [|c2 rest]]]; [done|done|done|].
  replace (truthy (c0 :: c1 :: c2 :: rest) && (2 <? length (c0 :: c1 :: c2 :: rest))%nat)
    with true by reflexivity.
  replace ((length (c0 :: c1 :: c2 :: rest) <=? 2)%nat) with false by reflexivity.
  unfold strip_marker. cbv beta iota zeta.
  rewrite keep_alt, (in_bullets_agree c0 Hc). reflexivity.
Qed.

(** [C7] (as amended) The alternatives on a cache miss with a non-empty
    reply: each line of the reply is trimmed; a line of at most two
    characters is dropped; a leading digit followed by '.', ')' or ':' is
    removed, otherwise a leading '-' or '*'; the rest is kept unless it is
    empty or equal to the query case-insensitively; the list is cut by
    [alternatives[:count]].  Lines whose first character is '•', 'â', '€'
    or '¢' are outside the statement. *)
Theorem expand_parse_amended (cfg : Config) (client : LLMClient) (query : pystr)
    (count : option Z) (cache : option (gmap pystr exp_entry)) (response : pystr)
    (Hmiss : forall c e, cache = Some c -> c !! sha256_hex (strip (py_lower query)) = Some e ->
             ee_expansions e = [])
    (Hav : is_available client = true)
    (Hchat : forall req, chat client req = Some response)
    (Hne : response <> [])
    (Hlines : forall l, In l (split_on 10 (strip response)) ->
       match strip l with c :: _ => ~ In c [8226; 226; 8364; 162] | [] => True end) :
  (expand_query cfg client query count cache).1
  = (query :: py_take (py_or count (expand_count cfg))
       (flat_map (fun l => match spec_expansion_line query l with Some x => [x] | None => [] end)
                 (split_on 10 (strip response))), false).
Proof.
  assert (Hparse : parse_expansions query response =
    flat_map (fun l => match spec_expansion_line query l with Some x => [x] | None => [] end)
             (split_on 10 (strip response))).
  { unfold parse_expansions. apply ListFacts.flat_map_ext_in. intros l Hl.
    rewrite (parse_line_amended query l (Hlines l Hl)). reflexivity. }
  assert (Hrest : forall cache' : option (gmap pystr exp_entry),
    (if negb (is_available client) then ([query], false, cache')
     else match chat client (ExpansionChat (py_or count (expand_count cfg)) query) with
          | None => ([query], false, cache')
          | Some [] => ([query], false, cache')
          | Some response =>
              let expansions := py_take (py_or count (expand_count cfg))
                                  (parse_expansions query response) in
              let cache0 := match cache', expansions with
                            | Some c, _ :: _ => Some (Expand.cache_set c (sha256_hex (strip (py_lower query))) query expansions)
                            | _, _ => cache'
                            end in
              (query :: expansions, false, cache0)
          end).1
    = (query :: py_take (py_or count (expand_count cfg))
         (flat_map (fun l => match spec_expansion_line query l with Some x => [x] | None => [] end)
                   (split_on 10 (strip response))), false)).
  { intros cache'. rewrite Hav, Hchat. simpl.
    destruct response as [|x r]; [done|]. rewrite <- Hparse. done. }
  unfold expand_query.
  destruct cache as [c|].
  - unfold Expand.cache_get. destruct (c !! _) as [e|] eqn:He; simpl.
    + rewrite (Hmiss c e eq_refl He). apply Hrest.
    + apply Hrest.
  - apply Hrest.
Qed.

Lemma scan_parts_all_parse (parts : list pystr) :
  (forall t, In t parts -> py_float t <> None) ->
  scan_parts parts
  = first_some (map (fun t => match py_float t with Some v => in_range v | None => None end) parts).
Proof.
  induction parts as [|p ps IH]; intros Hall; simpl; [done|].
  destruct (py_float p) as [v|] eqn:Hp.
  - destruct v as [q| |]; simpl; try (apply IH; intros t Ht; apply Hall; right; done).
    destruct (Qle_bool 0 q && Qle_bool q 10); simpl; [done|].
    apply IH. intros t Ht. apply Hall. right. done.
  - exfalso. apply (Hall p); [left; done|done].
Qed.

Lemma length_pad_scores (scores : list Q) (n : nat) : length (pad_scores scores n) = n.
Proof.
  unfold pad_scores. rewrite length_firstn, length_app, length_replicate. lia.
Qed.

Lemma lookup_pad_scores (scores : list Q) (n j : nat) :
  (j < n)%nat -> pad_scores scores n !! j = Some (get (scores !! j) neutral).
Proof.
  intros Hj. unfold pad_scores. rewrite lookup_take_lt by done.
  destruct (decide (j < length scores)%nat) as [Hlt|Hge].
  - rewrite lookup_app_l by done. destruct (lookup_lt_is_Some_2 scores j Hlt) as [x Hx].
    rewrite Hx. done.
  - rewrite lookup_app_r by lia. rewrite lookup_replicate_2 by lia.
    rewrite (lookup_ge_None_2 scores j) by lia. done.
Qed.

(** For a non-empty reply, [_get_llm_scores] returns one score per
    document: the [j]-th score extracted from the reply's lines, or 5.0 past
    the last one.  The code reads a line's score after deleting '[' and ']'
    and turning every '.' into a space (which splits a decimal such as "7.5"
    into the tokens 7 and 5 as well as an index prefix "1."); when every
    whitespace-separated token of the line is a number, the score is the
    value of the last token lying in [0,10], and the line contributes no
    score when there is none. *)
Theorem get_llm_scores_parse (client : LLMClient) (query : pystr) (docs : list doc)
    (response : pystr)
    (Hav : is_available client = true)
    (Hchat : forall req, chat client req = Some response)
    (Hne : response <> []) :
  exists scores,
    get_llm_scores client query docs = Some scores /\
    length scores = length docs /\
    (forall j, (j < length docs)%nat -> scores !! j = Some (get (parse_scores response !! j) 5.0%Q)) /\
    parse_scores response
      = flat_map (fun l => match line_score l with Some q => [q] | None => [] end)
                 (split_on 10 (strip response)) /\
    (forall line, (forall t, In t (score_tokens line) -> py_float t <> None) ->
       line_score line
       = last_some (map (fun t => match py_float t with Some v => in_range v | None => None end)
                        (score_tokens line))).
Proof.
  exists (pad_scores (parse_scores response) (length docs)).
  split; [|split; [|split; [|split]]].
  - unfold get_llm_scores. rewrite Hav, Hchat. simpl.
    destruct response; [done|]. reflexivity.
  - apply length_pad_scores.
  - intros j Hj. apply lookup_pad_scores. done.
  - reflexivity.
  - intros line Hall. unfold line_score. fold (score_tokens line).
    rewrite last_some_rev, <- map_rev. apply scan_parts_all_parse.
    intros t Ht. apply Hall. apply in_rev. done.
Qed.

End ParseProps.
End ParseProps.

(** ** Rerank and blend stages *)
Module RerankProps.
Import Rerank SpecModel ListFacts.

Lemma weight_bm25_spec (p : Z) : 1 <= p -> weight_bm25 p = spec_weight p.
Proof.
  intros Hp. unfold weight_bm25, spec_weight.
  destruct (Z.leb_spec p 3); destruct (Z.leb_spec p 10); destruct (Z.leb_spec 1 p);
    destruct (Z.leb_spec 4 p); simpl; try reflexivity; lia.
Qed.

Lemma fold_neutral_lookup (u : list nat) (sc : gmap nat Q) (i : nat) :
  In i u \/ sc !! i = Some neutral ->
  fold_left (fun sc idx => <[idx := neutral]> sc) u sc !! i = Some neutral.
Proof.
  revert sc; induction u as [|x u IH]; intros sc Hi; simpl.
  - destruct Hi as [[]|H]; done.
  - apply IH. destruct Hi as [[->|Hi]|Hi].
    + right. apply lookup_insert_eq.
    + left. done.
    + right. destruct (decide (x = i)) as [->|Hne].
      * apply lookup_insert_eq.
      * rewrite lookup_insert_ne by done. done.
Qed.

Lemma map_fst_combine {A B} (u : list A) (l : list B) :
  length u = length l -> map fst (combine u l) = u.
Proof.
  revert l; induction u as [|x u IH]; intros [|y l] Hlen; simpl in *; try done.
  rewrite IH by lia. done.
Qed.

Lemma In_combine_l {A B} (u : list A) (l : list B) (x : A) :
  length u = length l -> In x u -> exists y, In (x, y) (combine u l).
Proof.
  revert l; induction u as [|a u IH]; intros [|b l] Hlen Hx; simpl in *; try done; try lia.
  destruct Hx as [->|Hx].
  - exists b. left. done.
  - destruct (IH l ltac:(lia) Hx) as [y Hy]. exists y. right. done.
Qed.

Lemma NoDup_map_fst_filter {A B} (p : A * B -> bool) (l : list (A * B)) :
  NoDup (map fst l) -> NoDup (map fst (List.filter p l)).
Proof.
  induction l as [|[a b] l IH]; intros Hnd; simpl; [constructor|].
  inversion Hnd as [|? ? Hnotin Hnd']; subst.
  destruct (p (a, b)); simpl; [|apply IH; done].
  constructor; [|apply IH; done].
  intros Hin. apply Hnotin. rewrite list_elem_of_In in Hin |- *.
  apply in_map_iff in Hin as ([a' b'] & Heq & Hin).
  simpl in Heq; subst. apply filter_In in Hin as [Hin _].
  apply in_map_iff. eexists. split; [|exact Hin]. done.
Qed.

Lemma map_fst_enumerate_from {A} (k : nat) (l : list A) :
  map fst (enumerate_from k l) = seq k (length l).
Proof. revert k; induction l as [|x l IH]; intros k; simpl; [done|]. rewrite IH. done. Qed.

Section RerankProps.
Context `{PyRuntime}.

Lemma rerank_results_unfold (cfg : Config) (client : LLMClient) (query : pystr)
    (results : list doc) (topk : option Z) (cache : option (gmap pystr rerank_entry)) :
  let candidates := py_take (py_or topk (rerank_topk cfg)) results in
  let qh := sha256_hex (strip (py_lower query)) in
  let st := fold_left (lookup_step cache qh) (enumerate candidates) (∅, 0, []) in
  let sc := score_uncached client query qh candidates st.1.1 st.2 cache in
  rerank_results cfg client query results topk cache
  = (sort_desc rr_blended_score (map (blend sc.1) (enumerate candidates)), st.1.2, sc.2).
Proof.
  cbv zeta. unfold rerank_results.
  destruct (py_take (py_or topk (rerank_topk cfg)) results) as [|d ds]; [reflexivity|].
  destruct (fold_left _ _ _) as [[scores hits] uncached].
  destruct (score_uncached _ _ _ _ _ _ _). reflexivity.
Qed.

Lemma lookup_fold_uncached (cache : option (gmap pystr rerank_entry)) (qh : pystr)
    (l : list (nat * doc)) (sc : gmap nat Q) (h : Z) (u0 : list nat) :
  (fold_left (lookup_step cache qh) l (sc, h, u0)).2
  = u0 ++ map fst (List.filter (fun id => match cached_score cache qh id.2 with
                                          | None => true | Some _ => false end) l).
Proof.
  revert sc h u0; induction l as [|[i d] l IH]; intros sc h u0; simpl.
  - rewrite app_nil_r. done.
  - destruct (cached_score cache qh d); rewrite IH; [done|]. rewrite <- app_assoc. done.
Qed.

(** The uncached indices: exactly the positions whose document misses the
    cache, without repetition. *)
Lemma uncached_spec (cache : option (gmap pystr rerank_entry)) (qh : pystr)
    (candidates : list doc) :
  let u := (fold_left (lookup_step cache qh) (enumerate candidates) (∅, 0, [])).2 in
  NoDup u /\
  (forall i, In i u <-> exists d, candidates !! i = Some d /\ cached_score cache qh d = None).
Proof.
  cbv zeta. rewrite lookup_fold_uncached. simpl. split.
  - apply NoDup_map_fst_filter. unfold enumerate. rewrite map_fst_enumerate_from.
    apply NoDup_ListNoDup, seq_NoDup.
  - intros i. rewrite in_map_iff. split.
    + intros ([i' d] & <- & Hin). apply filter_In in Hin as [Hin Hc].
      apply enumerate_In in Hin. exists d. split; [done|].
      simpl in Hc. destruct (cached_score cache qh d); done.
    + intros (d & Hd & Hc). exists (i, d). split; [done|].
      apply filter_In. split; [apply enumerate_In; done|]. simpl. rewrite Hc. done.
Qed.

Lemma get_llm_scores_fail (client : LLMClient) (query : pystr) (docs : list doc) :
  (is_available client = false \/
   (forall req, chat client req = None \/ chat client req = Some [])) ->
  get_llm_scores client query docs = None.
Proof.
  intros Hfail. unfold get_llm_scores.
  destruct (is_available client) eqn:Ha; simpl; [|done].
  destruct Hfail as [Hf|Hc]; [congruence|].
  match goal with |- match chat client ?r with _ => _ end = _ =>
    destruct (Hc r) as [E|E]; rewrite E; done end.
Qed.

Lemma blend_In (scores : gmap nat Q) (candidates : list doc) (rr : RerankResult) :
  In rr (sort_desc rr_blended_score (map (blend scores) (enumerate candidates))) <->
  exists i d, candidates !! i = Some d /\ rr = blend scores (i, d).
Proof.
  split.
  - intros Hin. apply (Permutation_in _ (sort_desc_perm _ _)) in Hin.
    apply in_map_iff in Hin as ([i d] & <- & Hin). apply enumerate_In in Hin.
    exists i, d. done.
  - intros (i & d & Hd & ->). apply (Permutation_in _ (Permutation_sym (sort_desc_perm _ _))).
    apply in_map_iff. exists (i, d). split; [done|]. apply enumerate_In. done.
Qed.

(** [C2] Every record returned by [rerank_results] comes from the candidate
    at 0-based position [i] of the [topk] prefix, carries the 1-based rank
    [i+1] and that candidate's lexical score, and its blended score is
    [w * min(s/15, 1) + (1 - w) * (r/10)] with [w] 0.75 for ranks 1-3,
    0.60 for ranks 4-10 and 0.40 from rank 11 on ([r] the relevance score
    of the record).  No bound on [s] or [r] is needed. *)
Theorem rerank_blended_score (cfg : Config) (client : LLMClient) (query : pystr)
    (results : list doc) (topk : option Z) (cache : option (gmap pystr rerank_entry))
    (rr : RerankResult) :
  In rr (rerank_results cfg client query results topk cache).1.1 ->
  exists i d,
    py_take (py_or topk (rerank_topk cfg)) results !! i = Some d /\
    rr_original_rank rr = Z.of_nat i + 1 /\
    rr_original_score rr = get (d_score d) 0%Q /\
    (rr_blended_score rr
     == spec_blend (rr_original_rank rr) (rr_original_score rr) (rr_rerank_score rr))%Q.
Proof.
  rewrite rerank_results_unfold. simpl. intros Hin.
  apply blend_In in Hin as (i & d & Hd & ->).
  exists i, d. split; [done|]. simpl. split; [done|]. split; [done|].
  unfold spec_blend. rewrite weight_bm25_spec by lia. rewrite py_min_Qmin.
  reflexivity.
Qed.

(** [C5] When the model cannot be used (server unavailable, or every reply
    missing or empty), [rerank_results] returns one record per candidate of
    the [topk] prefix, and every candidate whose score is not in the cache
    gets the relevance score 5.0.  ([rerank_results] is total: no error.) *)
Theorem rerank_neutral_fallback (cfg : Config) (client : LLMClient) (query : pystr)
    (results : list doc) (topk : option Z) (cache : option (gmap pystr rerank_entry))
    (Hfail : is_available client = false \/
             (forall req, chat client req = None \/ chat client req = Some [])) :
  let candidates := py_take (py_or topk (rerank_topk cfg)) results in
  let out := (rerank_results cfg client query results topk cache).1.1 in
  length out = length candidates /\
  forall i d, candidates !! i = Some d ->
    cached_score cache (sha256_hex (strip (py_lower query))) d = None ->
    exists rr, In rr out /\ rr_original_rank rr = Z.of_nat i + 1 /\ rr_rerank_score rr = 5.0%Q.
Proof.
  cbv zeta. rewrite rerank_results_unfold. simpl.
  set (candidates := py_take (py_or topk (rerank_topk cfg)) results).
  set (qh := sha256_hex (strip (py_lower query))).
  set (st := fold_left (lookup_step cache qh) (enumerate candidates) (∅, 0, [])).
  assert (Hsc : score_uncached client query qh candidates st.1.1 st.2 cache
                = (fold_left (fun sc idx => <[idx := neutral]> sc) st.2 st.1.1, cache)).
  { unfold score_uncached. destruct st.2 as [|x u]; [done|].
    rewrite get_llm_scores_fail by done. done. }
  rewrite Hsc. simpl. split.
  - rewrite (Permutation_length (sort_desc_perm _ _)), length_map.
    unfold enumerate. apply length_enumerate_from.
  - intros i d Hd Hc. exists (blend (fold_left (fun sc idx => <[idx := neutral]> sc) st.2 st.1.1) (i, d)).
    split; [apply blend_In; exists i, d; done|]. simpl. split; [done|].
    rewrite fold_neutral_lookup; [done|]. left.
    destruct (uncached_spec cache qh candidates) as [_ Hu]. apply Hu. exists d. done.
Qed.

Lemma store_fold (cands : list doc) (qh : pystr) (zs : list (nat * Q))
    (sc : gmap nat Q) (c : gmap pystr rerank_entry) :
  NoDup (map fst zs) ->
  let r := fold_left (store_step cands qh) zs (sc, Some c) in
  exists c', r.2 = Some c' /\
    (forall i, i ∉ map fst zs -> r.1 !! i = sc !! i) /\
    (forall i s, In (i, s) zs -> r.1 !! i = Some s) /\
    (forall i s d, In (i, s) zs -> cands !! i = Some d ->
       (forall i' s' d', In (i', s') zs -> i' <> i -> cands !! i' = Some d' ->
          make_key qh (doc_hash d') <> make_key qh (doc_hash d)) ->
       c' !! make_key qh (doc_hash d)
       = Some {| re_query_hash := qh; re_doc_hash := doc_hash d; re_score := s |}) /\
    (forall key, (forall i s d, In (i, s) zs -> cands !! i = Some d ->
                    key <> make_key qh (doc_hash d)) ->
       c' !! key = c !! key).
Proof.
  revert sc c; induction zs as [|[i0 s0] zs IH]; intros sc c Hnd; cbn [fold_left map fst].
  - exists c. split; [done|]. split; [done|]. split; [intros ? ? []|].
    split; [intros ? ? ? []|]. done.
  - apply NoDup_cons in Hnd as [Hnotin Hnd].
    set (c0 := match cands !! i0 with
               | Some d => cache_set c qh (doc_hash d) s0
               | None => c
               end).
    assert (Hstep : store_step cands qh (sc, Some c) (i0, s0) = (<[i0 := s0]> sc, Some c0)).
    { unfold store_step, c0. destruct (cands !! i0); done. }
    rewrite Hstep.
    destruct (IH (<[i0 := s0]> sc) c0 Hnd) as (c' & Hc' & Hfr & Hsc & Hent & Hkey).
    exists c'. split; [done|]. split; [|split; [|split]].
    + intros i Hi. rewrite Hfr.
      * apply lookup_insert_ne. intros ->. apply Hi. left.
      * intros Hin. apply Hi. right. done.
    + intros i s [[= <- <-]|Hin].
      * rewrite Hfr by done. apply lookup_insert_eq.
      * apply Hsc. done.
    + intros i s d [[= <- <-]|Hin] Hd Huniq.
      * rewrite Hkey.
        -- unfold c0. rewrite Hd. unfold cache_set. apply lookup_insert_eq.
        -- intros i' s' d' Hin' Hd' Heq. symmetry in Heq.
           refine (Huniq i' s' d' (or_intror Hin') _ Hd' Heq).
           intros ->. apply Hnotin. apply list_elem_of_In, in_map_iff.
           exists (i0, s'). done.
      * apply (Hent i s d Hin Hd). intros i' s' d' Hin' Hne Hd'.
        apply (Huniq i' s' d' (or_intror Hin') Hne Hd').
    + intros key Hk. rewrite Hkey.
      * unfold c0. destruct (cands !! i0) as [d0|] eqn:Hd0; [|done].
        unfold cache_set. apply lookup_insert_ne.
        intros Heq. apply (Hk i0 s0 d0 (or_introl eq_refl) Hd0). done.
      * intros i s d Hin Hd. apply (Hk i s d (or_intror Hin) Hd).
Qed.

Lemma get_llm_scores_ok (client : LLMClient) (query response : pystr) (docs : list doc) :
  is_available client = true ->
  (forall req, chat client req = Some response) ->
  response <> [] ->
  get_llm_scores client query docs = Some (pad_scores (parse_scores response) (length docs)).
Proof.
  intros Hav Hchat Hne. unfold get_llm_scores. rewrite Hav, Hchat. simpl.
  destruct response; [done|]. reflexivity.
Qed.

Lemma length_omap_lookup (candidates : list doc) (u : list nat) :
  (forall i, In i u -> (i < length candidates)%nat) ->
  length (omap (fun i => candidates !! i) u) = length u.
Proof.
  induction u as [|i u IH]; intros Hr; simpl; [done|].
  destruct (lookup_lt_is_Some_2 candidates i (Hr i (or_introl eq_refl))) as [d Hd].
  rewrite Hd. simpl. f_equal. apply IH. intros j Hj. apply Hr. right. done.
Qed.

(** [C9] (as amended) The writes of [rerank_results] to a cache.  When the
    model cannot be used (unavailable, or replies missing or empty), nothing
    is written, not even the neutral scores.  When it replies, every
    candidate that missed the cache has its score (the model's, or the 5.0
    pad) stored under [sha256(queryHash + ":" + docHash)], replacing what
    was there, provided no other candidate has the same key; every other
    key keeps its entry. *)
Theorem rerank_cache_writes (cfg : Config) (client : LLMClient) (query : pystr)
    (results : list doc) (topk : option Z) (c : gmap pystr rerank_entry) :
  let candidates := py_take (py_or topk (rerank_topk cfg)) results in
  let qh := sha256_hex (strip (py_lower query)) in
  let r := rerank_results cfg client query results topk (Some c) in
  ((is_available client = false \/
    (forall req, chat client req = None \/ chat client req = Some [])) ->
   r.2 = Some c) /\
  (forall response, is_available client = true ->
     (forall req, chat client req = Some response) -> response <> [] ->
   exists c', r.2 = Some c' /\
     (forall i d, candidates !! i = Some d -> cache_get c qh (doc_hash d) = None ->
        (forall j d', j <> i -> candidates !! j = Some d' ->
           make_key qh (doc_hash d') <> make_key qh (doc_hash d)) ->
        exists rr, In rr r.1.1 /\ rr_original_rank rr = Z.of_nat i + 1 /\
          c' !! make_key qh (doc_hash d)
          = Some {| re_query_hash := qh; re_doc_hash := doc_hash d;
                    re_score := rr_rerank_score rr |}) /\
     (forall key, (forall i d, candidates !! i = Some d -> cache_get c qh (doc_hash d) = None ->
                     key <> make_key qh (doc_hash d)) ->
        c' !! key = c !! key)).
Proof.
  cbv zeta. rewrite rerank_results_unfold. simpl.
  set (candidates := py_take (py_or topk (rerank_topk cfg)) results).
  set (qh := sha256_hex (strip (py_lower query))).
  set (st := fold_left (lookup_step (Some c) qh) (enumerate candidates) (∅, 0, [])).
  destruct (uncached_spec (Some c) qh candidates) as [Hnd Hu]. fold st in Hnd, Hu.
  simpl in Hu.
  split.
  - intros Hfail. unfold score_uncached. destruct st.2; [done|].
    rewrite get_llm_scores_fail by done. done.
  - intros response Hav Hchat Hne.
    assert (Hrange : forall i, In i st.2 -> (i < length candidates)%nat).
    { intros i Hi. apply Hu in Hi as (d & Hd & _). apply lookup_lt_Some in Hd. done. }
    unfold score_uncached.
    destruct st.2 as [|x u] eqn:Hst.
    + exists c. split; [done|]. split; [|done].
      intros i d Hd Hc. exfalso. assert (Hi : In i []) by (apply Hu; exists d; done).
      done.
    + rewrite (get_llm_scores_ok client query response) by done.
      rewrite (length_omap_lookup candidates (x :: u) Hrange).
      set (llm := pad_scores (parse_scores response) (length (x :: u))).
      assert (Hlen : length (x :: u) = length llm) by (symmetry; apply ParseProps.length_pad_scores).
      destruct llm as [|l0 ls] eqn:Hllm; [simpl in Hlen; lia|].
      rewrite <- Hllm in Hlen |- *.
      assert (Hnd' : NoDup (map fst (combine (x :: u) llm))) by (rewrite map_fst_combine; done).
      destruct (store_fold candidates qh (combine (x :: u) llm) st.1.1 c Hnd')
        as (c' & Hc' & _ & Hsc & Hent & Hkey).
      exists c'. split; [done|]. split.
      * intros i d Hd Hc Huniq.
        assert (Hi : In i (x :: u)) by (apply Hu; exists d; done).
        destruct (In_combine_l (x :: u) llm i Hlen Hi) as [s Hs].
        eexists. split; [apply blend_In; exists i, d; split; [done|reflexivity]|].
        unfold blend. cbn [rr_original_rank rr_rerank_score]. split; [done|].
        rewrite (Hsc i s Hs). cbn [get].
        apply (Hent i s d Hs Hd). intros i' s' d' _ Hne' Hd'. apply (Huniq i' d' Hne' Hd').
      * intros key Hk. apply Hkey. intros i s d Hin Hd.
        apply (Hk i d Hd).
        assert (Hi : In i (x :: u)) by (apply in_combine_l in Hin; done).
        apply Hu in Hi as (d' & Hd' & Hc'').
        rewrite Hd in Hd'. injection Hd' as <-. done.
Qed.

End RerankProps.
End RerankProps.

(** ** The stable descending sort *)
Module SortFacts.
Import Rerank ListFacts.

Section Stable.
Context {A : Type} (key : A -> Q) (P : A -> A -> Prop).

(** The order [sort(key=key, reverse=True)] leaves between two elements:
    non-increasing keys, and with equal keys the order [P] they had. *)
Definition desc_stable (a b : A) : Prop :=
  (key b <= key a)%Q /\ ((key a == key b)%Q -> P a b).

Lemma insert_desc_sorted (x : A) (l : list A) :
  StronglySorted desc_stable l -> Forall (P x) l ->
  StronglySorted desc_stable (insert_desc key x l).
Proof.
  induction l as [|y l IH]; intros Hs Hp; simpl.
  - repeat constructor.
  - destruct (Qle_bool (key y) (key x)) eqn:E.
    + apply Qle_bool_iff in E. constructor; [exact Hs|].
      apply StronglySorted_inv in Hs as [_ Hy]. rewrite List.Forall_forall in Hy, Hp.
      apply List.Forall_forall. intros z [<-|Hz].
      * split; [exact E|]. intros _. apply Hp. left. reflexivity.
      * split.
        -- apply Qle_trans with (key y); [apply (proj1 (Hy z Hz))|exact E].
        -- intros _. apply Hp. right. exact Hz.
    + apply StronglySorted_inv in Hs as [Hs Hy]. rewrite List.Forall_forall in Hy.
      assert (Hlt : (key x < key y)%Q).
      { apply Qnot_le_lt. intros Hle. apply Qle_bool_iff in Hle. congruence. }
      constructor.
      * apply IH; [exact Hs|]. inversion Hp; assumption.
      * apply List.Forall_forall. intros z Hz.
        apply (Permutation_in _ (insert_desc_perm key x l)) in Hz as [<-|Hz].
        -- split; [apply Qlt_le_weak; exact Hlt|]. intros Heq. exfalso.
           apply (Qlt_not_le _ _ Hlt). apply Qle_lteq. right. exact Heq.
        -- apply Hy. exact Hz.
Qed.

(** [sort_desc] is a stable sort: from a list ordered by [P] it makes one
    ordered by [desc_stable]. *)
Lemma sort_desc_sorted (l : list A) :
  StronglySorted P l -> StronglySorted desc_stable (sort_desc key l).
Proof.
  induction l as [|x l IH]; intros Hs; simpl; [constructor|].
  apply StronglySorted_inv in Hs as [Hs Hx].
  apply insert_desc_sorted; [apply IH; exact Hs|].
  rewrite List.Forall_forall in Hx |- *. intros y Hy.
  apply Hx. apply (Permutation_in _ (sort_desc_perm key l)). exact Hy.
Qed.

End Stable.

Lemma StronglySorted_map {A B} (R : B -> B -> Prop) (f : A -> B) (l : list A) :
  StronglySorted (fun a b => R (f a) (f b)) l -> StronglySorted R (map f l).
Proof.
  induction l as [|x l IH]; intros Hs; simpl; [constructor|].
  apply StronglySorted_inv in Hs as [Hs Hx]. constructor; [apply IH; exact Hs|].
  rewrite List.Forall_forall in Hx |- *. intros y Hy. apply in_map_iff in Hy as (z & <- & Hz).
  apply Hx. exact Hz.
Qed.

Lemma In_firstn_l {A} (n : nat) (l : list A) (x : A) : In x (firstn n l) -> In x l.
Proof.
  revert n; induction l as [|y l IH]; intros [|n] Hx; simpl in *; try tauto.
  destruct Hx as [->|Hx]; [left; reflexivity|right; eapply IH; exact Hx].
Qed.

Lemma In_py_take {A} (n : Z) (l : list A) (x : A) : In x (py_take n l) -> In x l.
Proof. unfold py_take. destruct (0 <=? n); apply In_firstn_l. Qed.

End SortFacts.

(** ** More properties of [rerank_results] and [_get_llm_scores] *)
Module RerankMore.
Import Rerank SpecModel ListFacts SortFacts RerankProps.

Section RerankMore.
Context `{PyRuntime}.

(** [cache.get(query_hash, doc_hash) is not None], with [if cache:]. *)
Definition is_cached (cache : option (gmap pystr rerank_entry)) (qh : pystr) (d : doc) : bool :=
  match cached_score cache qh d with Some _ => true | None => false end.

(** Every score a (possibly absent) rerank cache holds lies in [0,10]. *)
Definition cache_scores_in_range (cache : option (gmap pystr rerank_entry)) : Prop :=
  forall c k e, cache = Some c -> c !! k = Some e -> (0 <= re_score e <= 10)%Q.

Definition scores_in_range (sc : gmap nat Q) : Prop :=
  forall i s, sc !! i = Some s -> (0 <= s <= 10)%Q.

Lemma NoDup_enumerate {A} (l : list A) : NoDup (map fst (enumerate l)).
Proof.
  unfold enumerate. rewrite map_fst_enumerate_from. apply NoDup_ListNoDup, seq_NoDup.
Qed.

Lemma map_rank_enumerate (sc : gmap nat Q) (k : nat) (l : list doc) :
  map rr_original_rank (map (blend sc) (enumerate_from k l))
  = map (fun i => Z.of_nat i + 1) (seq k (length l)).
Proof. revert k; induction l as [|d l IH]; intros k; simpl; [done|]. rewrite IH. done. Qed.

Lemma blend_ranks_sorted (sc : gmap nat Q) (k : nat) (l : list doc) :
  StronglySorted (fun a b => rr_original_rank a < rr_original_rank b)
                 (map (blend sc) (enumerate_from k l)).
Proof.
  revert k; induction l as [|d l IH]; intros k; simpl; constructor; [apply IH|].
  apply List.Forall_forall. intros rr Hrr. apply in_map_iff in Hrr as ([i d'] & <- & Hin).
  apply enumerate_from_In in Hin as (j & -> & _). simpl. lia.
Qed.

Lemma lookup_fold_hits (cache : option (gmap pystr rerank_entry)) (qh : pystr)
    (l : list (nat * doc)) (sc : gmap nat Q) (h : Z) (u : list nat) :
  (fold_left (lookup_step cache qh) l (sc, h, u)).1.2
  = h + Z.of_nat (length (List.filter (fun id => is_cached cache qh id.2) l)).
Proof.
  revert sc h u; induction l as [|[i d] l IH]; intros sc h u; simpl; [lia|].
  unfold is_cached in *. simpl.
  destruct (cached_score cache qh d); simpl; rewrite IH; simpl; [rewrite Nat2Z.inj_succ|]; lia.
Qed.

Lemma filter_enumerate_length (p : doc -> bool) (k : nat) (l : list doc) :
  length (List.filter (fun id => p id.2) (enumerate_from k l)) = length (List.filter p l).
Proof. revert k; induction l as [|d l IH]; intros k; simpl; [done|]. destruct (p d); simpl; rewrite IH; done. Qed.

Lemma filter_all_true {A} (p : A -> bool) (l : list A) :
  (forall x, In x l -> p x = true) -> List.filter p l = l.
Proof.
  induction l as [|x l IH]; intros Hp; simpl; [done|].
  rewrite (Hp x (or_introl eq_refl)), IH; [done|]. intros y Hy. apply Hp. right. exact Hy.
Qed.

Lemma lookup_fold_keep (cache : option (gmap pystr rerank_entry)) (qh : pystr)
    (l : list (nat * doc)) (sc : gmap nat Q) (h : Z) (u : list nat) (i : nat) :
  ~ In i (map fst l) ->
  (fold_left (lookup_step cache qh) l (sc, h, u)).1.1 !! i = sc !! i.
Proof.
  revert sc h u; induction l as [|[j d] l IH]; intros sc h u Hi; simpl in *; [done|].
  destruct (cached_score cache qh d); rewrite IH by tauto; [|done].
  apply lookup_insert_ne. intros Heq. apply Hi. left. exact Heq.
Qed.

Lemma lookup_fold_scores (cache : option (gmap pystr rerank_entry)) (qh : pystr)
    (l : list (nat * doc)) (sc : gmap nat Q) (h : Z) (u : list nat) (i : nat) (d : doc) :
  NoDup (map fst l) -> In (i, d) l ->
  (fold_left (lookup_step cache qh) l (sc, h, u)).1.1 !! i
  = match cached_score cache qh d with Some s => Some s | None => sc !! i end.
Proof.
  revert sc h u; induction l as [|[j d'] l IH]; intros sc h u Hnd Hin; simpl in *; [done|].
  apply NoDup_cons in Hnd as [Hj Hnd]. rewrite list_elem_of_In in Hj.
  destruct Hin as [[= -> ->]|Hin].
  - destruct (cached_score cache qh d); rewrite lookup_fold_keep by done; [|done].
    apply lookup_insert_eq.
  - assert (Hij : j <> i).
    { intros ->. apply Hj. apply in_map_iff. exists (i, d). done. }
    destruct (cached_score cache qh d'); rewrite IH by done;
      destruct (cached_score cache qh d); try done.
    apply lookup_insert_ne. exact Hij.
Qed.

Lemma store_fold_keep (cands : list doc) (qh : pystr) (zs : list (nat * Q))
    (st : gmap nat Q * option (gmap pystr rerank_entry)) (i : nat) :
  (forall s, ~ In (i, s) zs) ->
  (fold_left (store_step cands qh) zs st).1 !! i = st.1 !! i.
Proof.
  revert st; induction zs as [|[j s] zs IH]; intros [sc cache] Hi; simpl; [done|].
  rewrite IH.
  - simpl. apply lookup_insert_ne. intros <-. apply (Hi s). left. reflexivity.
  - intros s' Hs'. apply (Hi s'). right. exact Hs'.
Qed.

Lemma fold_neutral_keep (u : list nat) (sc : gmap nat Q) (i : nat) :
  ~ In i u -> fold_left (fun sc idx => <[idx := neutral]> sc) u sc !! i = sc !! i.
Proof.
  revert sc; induction u as [|x u IH]; intros sc Hi; simpl in *; [done|].
  rewrite IH by tauto. apply lookup_insert_ne. intros Heq. apply Hi. left. exact Heq.
Qed.

Lemma score_uncached_keep (client : LLMClient) (query qh : pystr) (cands : list doc)
    (sc : gmap nat Q) (u : list nat) (cache : option (gmap pystr rerank_entry)) (i : nat) :
  ~ In i u -> (score_uncached client query qh cands sc u cache).1 !! i = sc !! i.
Proof.
  intros Hi. unfold score_uncached. destruct u as [|x u']; [done|].
  destruct (get_llm_scores client query _) as [[|l0 ls]|].
  - apply fold_neutral_keep. exact Hi.
  - rewrite store_fold_keep; [done|]. intros s Hs. apply in_combine_l in Hs. contradiction.
  - apply fold_neutral_keep. exact Hi.
Qed.

Lemma uncached_not_In (cache : option (gmap pystr rerank_entry)) (qh : pystr)
    (cands : list doc) (i : nat) (d : doc) (s : Q) :
  cands !! i = Some d -> cached_score cache qh d = Some s ->
  ~ In i (fold_left (lookup_step cache qh) (enumerate cands) (∅, 0, [])).2.
Proof.
  intros Hd Hc Hi. destruct (uncached_spec cache qh cands) as [_ Hu].
  apply Hu in Hi as (d' & Hd' & Hc'). rewrite Hd in Hd'. injection Hd' as <-. congruence.
Qed.

Lemma scan_parts_range (parts : list pystr) (q : Q) :
  scan_parts parts = Some q -> (0 <= q <= 10)%Q.
Proof.
  induction parts as [|p ps IH]; simpl; [discriminate|].
  destruct (py_float p) as [[q0|b|]|]; [|apply IH|apply IH|discriminate].
  destruct (Qle_bool 0 q0 && Qle_bool q0 10) eqn:E; [|apply IH].
  intros [= <-]. apply andb_true_iff in E as [E1 E2].
  apply Qle_bool_iff in E1, E2. split; assumption.
Qed.

Lemma parse_scores_range (response : pystr) :
  Forall (fun q => (0 <= q <= 10)%Q) (parse_scores response).
Proof.
  unfold parse_scores. apply List.Forall_forall. intros q Hq.
  apply in_flat_map in Hq as (l & _ & Hl).
  destruct (line_score l) eqn:E; [|destruct Hl].
  destruct Hl as [<-|[]]. unfold line_score in E. apply scan_parts_range in E. exact E.
Qed.

Lemma neutral_range : (0 <= neutral <= 10)%Q.
Proof. unfold neutral. split; unfold Qle; simpl; lia. Qed.

Lemma get_llm_scores_in_range (client : LLMClient) (query : pystr) (docs : list doc)
    (scores : list Q) :
  get_llm_scores client query docs = Some scores ->
  length scores = length docs /\ Forall (fun q => (0 <= q <= 10)%Q) scores.
Proof.
  unfold get_llm_scores. destruct (is_available client); simpl; [|discriminate].
  destruct (chat client _) as [[|c r]|]; try discriminate.
  intros [= <-]. split; [apply ParseProps.length_pad_scores|].
  unfold pad_scores. apply Forall_take, Forall_app. split.
  - apply parse_scores_range.
  - apply Forall_replicate. apply neutral_range.
Qed.

Lemma cached_score_range (cache : option (gmap pystr rerank_entry)) (qh : pystr)
    (d : doc) (s : Q) :
  cache_scores_in_range cache -> cached_score cache qh d = Some s -> (0 <= s <= 10)%Q.
Proof.
  intros Hc. unfold cached_score, cache_get. destruct cache as [c|]; [|discriminate].
  destruct (c !! make_key qh (doc_hash d)) as [e|] eqn:E; simpl; [|discriminate].
  intros [= <-]. exact (Hc c _ e eq_refl E).
Qed.

Lemma lookup_fold_range (cache : option (gmap pystr rerank_entry)) (qh : pystr)
    (l : list (nat * doc)) (st : gmap nat Q * Z * list nat) :
  cache_scores_in_range cache -> scores_in_range st.1.1 ->
  scores_in_range (fold_left (lookup_step cache qh) l st).1.1.
Proof.
  revert st; induction l as [|[i d] l IH]; intros [[sc h] u] Hc Hsc; simpl; [exact Hsc|].
  apply IH; [exact Hc|]. simpl.
  destruct (cached_score cache qh d) as [s|] eqn:E; simpl; [|exact Hsc].
  intros j s'. rewrite lookup_insert_Some. intros [[<- <-]|[_ Hj]].
  - eapply cached_score_range; eauto.
  - eapply Hsc; eauto.
Qed.

Lemma store_fold_range (cands : list doc) (qh : pystr) (zs : list (nat * Q))
    (st : gmap nat Q * option (gmap pystr rerank_entry)) :
  (forall i s, In (i, s) zs -> (0 <= s <= 10)%Q) ->
  scores_in_range st.1 -> cache_scores_in_range st.2 ->
  scores_in_range (fold_left (store_step cands qh) zs st).1 /\
  cache_scores_in_range (fold_left (store_step cands qh) zs st).2.
Proof.
  revert st; induction zs as [|[j s] zs IH]; intros [sc cache] Hz Hsc Hc; simpl; [done|].
  apply IH.
  - intros i s' Hin. apply (Hz i s'). right. exact Hin.
  - simpl. intros i s'. rewrite lookup_insert_Some. intros [[<- <-]|[_ Hi]].
    + apply (Hz j). left. reflexivity.
    + eapply Hsc; eauto.
  - simpl. destruct cache as [c|]; [|exact Hc].
    destruct (cands !! j) as [d|]; [|exact Hc].
    intros c' k e [= <-]. unfold cache_set. rewrite lookup_insert_Some.
    intros [[_ <-]|[_ Hk]].
    + simpl. apply (Hz j). left. reflexivity.
    + exact (Hc c k e eq_refl Hk).
Qed.

Lemma fold_neutral_range (u : list nat) (sc : gmap nat Q) :
  scores_in_range sc -> scores_in_range (fold_left (fun sc idx => <[idx := neutral]> sc) u sc).
Proof.
  revert sc; induction u as [|x u IH]; intros sc Hsc; simpl; [exact Hsc|].
  apply IH. intros i s. rewrite lookup_insert_Some. intros [[_ <-]|[_ Hi]].
  - apply neutral_range.
  - eapply Hsc; eauto.
Qed.

Lemma score_uncached_range (client : LLMClient) (query qh : pystr) (cands : list doc)
    (sc : gmap nat Q) (u : list nat) (cache : option (gmap pystr rerank_entry)) :
  scores_in_range sc -> cache_scores_in_range cache ->
  scores_in_range (score_uncached client query qh cands sc u cache).1 /\
  cache_scores_in_range (score_uncached client query qh cands sc u cache).2.
Proof.
  intros Hsc Hc. unfold score_uncached. destruct u as [|x u']; [done|].
  destruct (get_llm_scores client query _) as [[|l0 ls]|] eqn:E.
  - split; [apply fold_neutral_range; exact Hsc|exact Hc].
  - apply store_fold_range; [|exact Hsc|exact Hc].
    intros i s Hin. apply in_combine_r in Hin.
    apply get_llm_scores_in_range in E as [_ Hf]. rewrite List.Forall_forall in Hf. apply Hf. exact Hin.
  - split; [apply fold_neutral_range; exact Hsc|exact Hc].
Qed.

Lemma blend_unit (w m t : Q) :
  (w = 0.75 \/ w = 0.60 \/ w = 0.40)%Q -> (0 <= m <= 1)%Q -> (0 <= t <= 1)%Q ->
  (0 <= w * m + (1 - w) * t <= 1)%Q.
Proof. intros [-> | [-> | ->] ] Hm Ht; lra. Qed.

Lemma blend_range (sc : gmap nat Q) (i : nat) (d : doc) :
  scores_in_range sc -> (0 <= get (d_score d) 0%Q)%Q ->
  (0 <= rr_rerank_score (blend sc (i, d)) <= 10)%Q /\
  (0 <= rr_blended_score (blend sc (i, d)) <= 1)%Q.
Proof.
  intros Hsc Hs. unfold blend. cbn [rr_rerank_score rr_blended_score].
  assert (Hr : (0 <= get (sc !! i) neutral <= 10)%Q).
  { destruct (sc !! i) as [s|] eqn:E; simpl; [eapply Hsc; eauto|apply neutral_range]. }
  split; [exact Hr|]. apply blend_unit.
  - unfold weight_bm25. destruct (_ <=? 3); [left; reflexivity|].
    destruct (_ <=? 10); right; [left|right]; reflexivity.
  - rewrite py_min_Qmin. split.
    + apply Q.min_glb; [|unfold Qle; simpl; lia].
      apply Qle_shift_div_l; [reflexivity|]. rewrite Qmult_0_l. exact Hs.
    + apply Q.le_min_r.
  - destruct Hr as [Hr0 Hr1]. split.
    + apply Qle_shift_div_l; [reflexivity|]. rewrite Qmult_0_l. exact Hr0.
    + apply Qle_shift_div_r; [reflexivity|]. exact Hr1.
Qed.

(** The two calls agree on the scores of every candidate, so they blend
    alike. *)
Lemma map_blend_ext (s1 s2 : gmap nat Q) (cands : list doc) :
  (forall i d, cands !! i = Some d -> s1 !! i = s2 !! i) ->
  map (blend s1) (enumerate cands) = map (blend s2) (enumerate cands).
Proof.
  intros Hext. apply map_ext_in. intros [i d] Hin. apply enumerate_In in Hin.
  unfold blend. rewrite (Hext i d Hin). reflexivity.
Qed.

(** After a call with a working model, every candidate's score is in the
    scores map and in the returned cache, provided no two candidates share
    a cache key. *)
Lemma scores_after_success (client : LLMClient) (query : pystr) (cands : list doc)
    (c : gmap pystr rerank_entry) (response : pystr) :
  let qh := sha256_hex (strip (py_lower query)) in
  let st := fold_left (lookup_step (Some c) qh) (enumerate cands) (∅, 0, []) in
  let sc := score_uncached client query qh cands st.1.1 st.2 (Some c) in
  is_available client = true -> (forall req, chat client req = Some response) ->
  response <> [] ->
  (forall i j d d', cands !! i = Some d -> cands !! j = Some d' -> i <> j ->
     make_key qh (doc_hash d) <> make_key qh (doc_hash d')) ->
  exists c', sc.2 = Some c' /\
    forall i d, cands !! i = Some d ->
      exists s, sc.1 !! i = Some s /\ cache_get c' qh (doc_hash d) = Some s.
Proof.
  intros qh st sc Hav Hchat Hne Hkeys.
  destruct (uncached_spec (Some c) qh cands) as [Hnd Hu]. fold st in Hnd, Hu. simpl in Hu.
  assert (Hcached : forall i d s, cands !! i = Some d -> cached_score (Some c) qh d = Some s ->
                      st.1.1 !! i = Some s).
  { intros i d s Hd Hc. unfold st.
    rewrite (lookup_fold_scores (Some c) qh (enumerate cands) ∅ 0 [] i d (NoDup_enumerate cands))
      by (apply enumerate_In; exact Hd).
    rewrite Hc. reflexivity. }
  assert (Hrange : forall i, In i st.2 -> (i < length cands)%nat).
  { intros i Hi. apply Hu in Hi as (d & Hd & _). apply lookup_lt_Some in Hd. exact Hd. }
  unfold sc, score_uncached. destruct st.2 as [|x u] eqn:Hst.
  - exists c. split; [reflexivity|]. intros i d Hd. simpl.
    destruct (cached_score (Some c) qh d) as [s|] eqn:Hc.
    + exists s. split; [apply (Hcached i d s Hd Hc)|exact Hc].
    + exfalso. assert (Hi : In i []) by (apply Hu; exists d; split; assumption). exact Hi.
  - rewrite (get_llm_scores_ok client query response) by assumption.
    rewrite (length_omap_lookup cands (x :: u) Hrange).
    set (llm := pad_scores (parse_scores response) (length (x :: u))).
    assert (Hlen : length (x :: u) = length llm) by (symmetry; apply ParseProps.length_pad_scores).
    destruct llm as [|l0 ls] eqn:Hllm; [simpl in Hlen; lia|].
    rewrite <- Hllm in Hlen |- *.
    assert (Hnd' : NoDup (map fst (combine (x :: u) llm))) by (rewrite map_fst_combine; assumption).
    destruct (store_fold cands qh (combine (x :: u) llm) st.1.1 c Hnd')
      as (c' & Hc' & Hfr & Hsc & Hent & Hkey).
    exists c'. split; [exact Hc'|]. intros i d Hd.
    destruct (cached_score (Some c) qh d) as [s|] eqn:Hc.
    + exists s. split.
      * rewrite Hfr; [apply (Hcached i d s Hd Hc)|].
        rewrite map_fst_combine by exact Hlen. rewrite list_elem_of_In.
        intros Hin. rewrite <- Hst in Hin.
        exact (uncached_not_In (Some c) qh cands i d s Hd Hc Hin).
      * unfold cache_get. rewrite Hkey; [exact Hc|].
        intros i' s' d' Hin Hd'. apply in_combine_l in Hin.
        apply Hu in Hin as (d'' & Hd'' & Hc'').
        rewrite Hd' in Hd''. injection Hd'' as <-.
        apply (Hkeys i i' d d' Hd Hd').
        intros <-. rewrite Hd in Hd'. injection Hd' as <-. simpl in Hc. congruence.
    + assert (Hi : In i (x :: u)) by (apply Hu; exists d; split; assumption).
      destruct (In_combine_l (x :: u) llm i Hlen Hi) as [s Hs].
      exists s. split; [apply (Hsc i s Hs)|].
      unfold cache_get. rewrite (Hent i s d Hs Hd); [reflexivity|].
      intros i' s' d' _ Hne' Hd'. apply (Hkeys i' i d' d Hd' Hd Hne').
Qed.

(** [rerank_results] returns exactly one record per candidate: the
    original ranks of its output are a permutation of [1 .. n], where [n]
    is the number of candidates [results[:topk]]. *)
Theorem rerank_ranks_permutation (cfg : Config) (client : LLMClient) (query : pystr)
    (results : list doc) (topk : option Z) (cache : option (gmap pystr rerank_entry)) :
  let n := length (py_take (py_or topk (rerank_topk cfg)) results) in
  Permutation (map rr_original_rank (rerank_results cfg client query results topk cache).1.1)
              (map (fun i => Z.of_nat i + 1) (seq 0 n)).
Proof.
  cbv zeta. rewrite rerank_results_unfold. cbn [fst].
  unfold enumerate. rewrite <- (map_rank_enumerate (score_uncached client query
    (sha256_hex (strip (py_lower query))) (py_take (py_or topk (rerank_topk cfg)) results)
    (fold_left (lookup_step cache (sha256_hex (strip (py_lower query))))
       (enumerate_from 0 (py_take (py_or topk (rerank_topk cfg)) results)) (∅, 0, [])).1.1
    (fold_left (lookup_step cache (sha256_hex (strip (py_lower query))))
       (enumerate_from 0 (py_take (py_or topk (rerank_topk cfg)) results)) (∅, 0, [])).2
    cache).1 0).
  apply Permutation_map. apply sort_desc_perm.
Qed.

(** The output of [rerank_results] is sorted by blended score, highest
    first, and records with equal blended scores keep their original
    order (the sort is stable). *)
Theorem rerank_sorted_stable (cfg : Config) (client : LLMClient) (query : pystr)
    (results : list doc) (topk : option Z) (cache : option (gmap pystr rerank_entry)) :
  StronglySorted
    (fun a b => (rr_blended_score b <= rr_blended_score a)%Q /\
                ((rr_blended_score a == rr_blended_score b)%Q ->
                 rr_original_rank a < rr_original_rank b))
    (rerank_results cfg client query results topk cache).1.1.
Proof.
  rewrite rerank_results_unfold. cbn [fst].
  exact (sort_desc_sorted rr_blended_score _ _ (blend_ranks_sorted _ 0 _)).
Qed.

(** The [cache_hits] count returned by [rerank_results] is the number of
    candidates found in the cache. *)
Theorem rerank_hits_count (cfg : Config) (client : LLMClient) (query : pystr)
    (results : list doc) (topk : option Z) (cache : option (gmap pystr rerank_entry)) :
  (rerank_results cfg client query results topk cache).1.2
  = Z.of_nat (length (List.filter (is_cached cache (sha256_hex (strip (py_lower query))))
                                  (py_take (py_or topk (rerank_topk cfg)) results))).
Proof.
  rewrite rerank_results_unfold. cbn [fst snd]. unfold enumerate.
  rewrite lookup_fold_hits, filter_enumerate_length. reflexivity.
Qed.

(** A candidate whose score is in the cache gets that score: its output
    record carries it as [rerank_score], whatever the model answers. *)
Theorem rerank_uses_cached_score (cfg : Config) (client : LLMClient) (query : pystr)
    (results : list doc) (topk : option Z) (cache : option (gmap pystr rerank_entry))
    (i : nat) (d : doc) (s : Q) :
  py_take (py_or topk (rerank_topk cfg)) results !! i = Some d ->
  cached_score cache (sha256_hex (strip (py_lower query))) d = Some s ->
  exists rr, In rr (rerank_results cfg client query results topk cache).1.1 /\
    rr_original_rank rr = Z.of_nat i + 1 /\ rr_rerank_score rr = s.
Proof.
  intros Hd Hc. rewrite rerank_results_unfold. cbn [fst].
  set (cands := py_take (py_or topk (rerank_topk cfg)) results) in *.
  set (qh := sha256_hex (strip (py_lower query))) in *.
  set (st := fold_left (lookup_step cache qh) (enumerate cands) (∅, 0, [])).
  set (sc := score_uncached client query qh cands st.1.1 st.2 cache).
  exists (blend sc.1 (i, d)). split; [apply blend_In; exists i, d; split; [exact Hd|reflexivity]|].
  split; [reflexivity|]. cbn [blend rr_rerank_score].
  unfold sc. rewrite score_uncached_keep by (exact (uncached_not_In cache qh cands i d s Hd Hc)).
  unfold st. rewrite (lookup_fold_scores cache qh _ ∅ 0 [] i d (NoDup_enumerate cands))
    by (apply enumerate_In; exact Hd).
  rewrite Hc. reflexivity.
Qed.

Lemma all_cached_uncached_nil (cache : option (gmap pystr rerank_entry)) (qh : pystr)
    (cands : list doc) :
  (forall d, In d cands -> is_cached cache qh d = true) ->
  (fold_left (lookup_step cache qh) (enumerate cands) (∅, 0, [])).2 = [].
Proof.
  intros Hall. destruct (uncached_spec cache qh cands) as [_ Hu]. simpl in Hu.
  destruct (fold_left _ _ _).2 as [|x u] eqn:E; [reflexivity|].
  destruct (proj1 (Hu x) (or_introl eq_refl)) as (d & Hd & Hc).
  specialize (Hall d). unfold is_cached in Hall. rewrite Hc in Hall.
  discriminate Hall. apply list_elem_of_In. eapply list_elem_of_lookup_2. exact Hd.
Qed.

(** When every candidate is in the cache the model is never asked: the
    result does not depend on the client, and the cache comes back
    unchanged. *)
Theorem rerank_all_cached_no_model (cfg : Config) (client client' : LLMClient)
    (query : pystr) (results : list doc) (topk : option Z)
    (cache : option (gmap pystr rerank_entry)) :
  (forall d, In d (py_take (py_or topk (rerank_topk cfg)) results) ->
     is_cached cache (sha256_hex (strip (py_lower query))) d = true) ->
  rerank_results cfg client query results topk cache
  = rerank_results cfg client' query results topk cache /\
  (rerank_results cfg client query results topk cache).2 = cache.
Proof.
  intros Hall. rewrite !rerank_results_unfold.
  rewrite (all_cached_uncached_nil _ _ _ Hall). split; reflexivity.
Qed.

(** Warm cache: after a call whose model answered, with no two candidates
    sharing a cache key, a second call with the returned cache and any
    client (even an unavailable one) gives the same records, counts
    every candidate as a hit and leaves the cache as it is. *)
Theorem rerank_warm_cache (cfg : Config) (client client' : LLMClient) (query : pystr)
    (results : list doc) (topk : option Z) (c : gmap pystr rerank_entry) (response : pystr) :
  let cands := py_take (py_or topk (rerank_topk cfg)) results in
  let qh := sha256_hex (strip (py_lower query)) in
  is_available client = true -> (forall req, chat client req = Some response) ->
  response <> [] ->
  (forall i j d d', cands !! i = Some d -> cands !! j = Some d' -> i <> j ->
     make_key qh (doc_hash d) <> make_key qh (doc_hash d')) ->
  let r1 := rerank_results cfg client query results topk (Some c) in
  let r2 := rerank_results cfg client' query results topk r1.2 in
  r2.1.1 = r1.1.1 /\ r2.1.2 = Z.of_nat (length cands) /\ r2.2 = r1.2.
Proof.
  intros cands qh Hav Hchat Hne Hkeys r1 r2.
  destruct (scores_after_success client query cands c response Hav Hchat Hne Hkeys)
    as (c' & Hc' & Hsc).
  fold qh in Hc', Hsc.
  unfold r2, r1. rewrite !rerank_results_unfold. fold cands qh. cbn [fst snd].
  rewrite Hc'.
  assert (Hall : forall d, In d cands -> is_cached (Some c') qh d = true).
  { intros d Hd. apply list_elem_of_In, list_elem_of_lookup in Hd as [i Hi].
    destruct (Hsc i d Hi) as (s & _ & Hs). unfold is_cached, cached_score. rewrite Hs.
    reflexivity. }
  rewrite (all_cached_uncached_nil _ _ _ Hall). cbn [score_uncached fst snd].
  split; [|split].
  - f_equal. apply map_blend_ext. intros i d Hd.
    destruct (Hsc i d Hd) as (s & Hs1 & Hs2). rewrite Hs1.
    rewrite (lookup_fold_scores (Some c') qh _ ∅ 0 [] i d (NoDup_enumerate cands))
      by (apply enumerate_In; exact Hd).
    unfold cached_score. rewrite Hs2. reflexivity.
  - unfold enumerate. rewrite lookup_fold_hits, filter_enumerate_length.
    rewrite filter_all_true by exact Hall. reflexivity.
  - reflexivity.
Qed.

(** [_get_llm_scores] returns, when it returns scores at all, exactly one
    score per document, each in [0, 10]. *)
Theorem get_llm_scores_bounds (client : LLMClient) (query : pystr) (docs : list doc)
    (scores : list Q) :
  get_llm_scores client query docs = Some scores ->
  length scores = length docs /\ Forall (fun q => (0 <= q <= 10)%Q) scores.
Proof. apply get_llm_scores_in_range. Qed.

(** Scores stay in range: if every cached score lies in [0, 10] and no
    candidate has a negative search score, every output record has a
    rerank score in [0, 10] and a blended score in [0, 1], and every
    score of the returned cache still lies in [0, 10]. *)
Theorem rerank_scores_bounded (cfg : Config) (client : LLMClient) (query : pystr)
    (results : list doc) (topk : option Z) (cache : option (gmap pystr rerank_entry)) :
  cache_scores_in_range cache ->
  Forall (fun d => (0 <= get (d_score d) 0%Q)%Q) results ->
  Forall (fun rr => (0 <= rr_rerank_score rr <= 10)%Q /\ (0 <= rr_blended_score rr <= 1)%Q)
         (rerank_results cfg client query results topk cache).1.1 /\
  cache_scores_in_range (rerank_results cfg client query results topk cache).2.
Proof.
  intros Hc Hres. rewrite rerank_results_unfold. cbn [fst snd].
  set (cands := py_take (py_or topk (rerank_topk cfg)) results).
  set (qh := sha256_hex (strip (py_lower query))).
  set (st := fold_left (lookup_step cache qh) (enumerate cands) (∅, 0, [])).
  assert (Hst : scores_in_range st.1.1).
  { apply lookup_fold_range; [exact Hc|]. intros i s. cbn [fst]. rewrite lookup_empty. discriminate. }
  destruct (score_uncached_range client query qh cands st.1.1 st.2 cache Hst Hc) as [H1 H2].
  split; [|exact H2]. apply List.Forall_forall. intros rr Hrr.
  apply blend_In in Hrr as (i & d & Hd & ->). apply blend_range; [exact H1|].
  rewrite List.Forall_forall in Hres. apply Hres. apply (In_py_take (py_or topk (rerank_topk cfg))).
  apply list_elem_of_In. eapply list_elem_of_lookup_2. exact Hd.
Qed.

Lemma store_fold_frame (cands : list doc) (qh : pystr) (zs : list (nat * Q))
    (st : gmap nat Q * option (gmap pystr rerank_entry)) (c : gmap pystr rerank_entry)
    (key : pystr) :
  (forall i d, cands !! i = Some d -> key <> make_key qh (doc_hash d)) ->
  st.2 = Some c ->
  exists c', (fold_left (store_step cands qh) zs st).2 = Some c' /\ c' !! key = c !! key.
Proof.
  intros Hk. revert st c; induction zs as [|[j s] zs IH]; intros [sc cache] c Hc; simpl in *.
  - exists c. split; [exact Hc|reflexivity].
  - subst cache. destruct (cands !! j) as [d|] eqn:Hd.
    + destruct (IH (<[j:=s]> sc, Some (cache_set c qh (doc_hash d) s)) _ eq_refl)
        as (c' & Hc' & Hl).
      exists c'. split; [exact Hc'|]. rewrite Hl. unfold cache_set.
      apply lookup_insert_ne. apply not_eq_sym. apply (Hk j d Hd).
    + apply (IH (<[j:=s]> sc, Some c)). reflexivity.
Qed.

(** [rerank_results] writes only the rows of its own candidates: a cache
    key that is no candidate's [_make_key(query_hash, doc_hash)] keeps its
    row. *)
Theorem rerank_cache_frame (cfg : Config) (client : LLMClient) (query : pystr)
    (results : list doc) (topk : option Z) (c : gmap pystr rerank_entry) (key : pystr) :
  (forall d, In d (py_take (py_or topk (rerank_topk cfg)) results) ->
     key <> make_key (sha256_hex (strip (py_lower query))) (doc_hash d)) ->
  exists c', (rerank_results cfg client query results topk (Some c)).2 = Some c' /\
             c' !! key = c !! key.
Proof.
  intros Hk. rewrite rerank_results_unfold. cbn [snd].
  set (cands := py_take (py_or topk (rerank_topk cfg)) results) in *.
  set (qh := sha256_hex (strip (py_lower query))) in *.
  assert (Hk' : forall i d, cands !! i = Some d -> key <> make_key qh (doc_hash d)).
  { intros i d Hd. apply Hk. apply list_elem_of_In. eapply list_elem_of_lookup_2. exact Hd. }
  unfold score_uncached. destruct (fold_left _ _ _).2 as [|x u].
  - exists c. split; reflexivity.
  - destruct (get_llm_scores client query _) as [[|l0 ls]|].
    + exists c. split; reflexivity.
    + apply (store_fold_frame cands qh _ _ c key Hk'). reflexivity.
    + exists c. split; reflexivity.
Qed.

End RerankMore.
End RerankMore.

(** ** The dedupe of [_do_search] and [_rrf_merge] of cli.py *)
Module FusionProps.
Import Rerank Fusion Pipeline ListFacts SortFacts.

(** The records of [l] whose key is not in [seen] and not taken before. *)
Fixpoint first_occ (seen : gset pystr) (l : list SearchResult) : list SearchResult :=
  match l with
  | [] => []
  | r :: l' =>
      if bool_decide (result_key r ∈ seen) then first_occ seen l'
      else r :: first_occ ({[result_key r]} ∪ seen) l'
  end.

(** [a] comes before [b] in [l]. *)
Definition before {A} (l : list A) (a b : A) : Prop :=
  exists i j, l !! i = Some a /\ l !! j = Some b /\ (i < j)%nat.

(** One term [1.0 / (k + rank)] of [_rrf_merge]. *)
Definition rrf_term (n_results n_queries i : nat) : Q :=
  (1 / inject_Z (rrf_k + approx_rank n_results n_queries i))%Q.

(** The sum of the terms of the positions of [l] whose record has key [k]. *)
Definition key_sum (n_results n_queries : nat) (l : list (nat * SearchResult)) (k : pystr) : Q :=
  fold_right (fun ir s =>
    ((if bool_decide (result_key ir.2 = k) then rrf_term n_results n_queries ir.1 else 0) + s)%Q)
    0%Q l.

(** The accumulated RRF score [scores[key]] of a key. *)
Definition rrf_score (results : list SearchResult) (n_queries : nat) (k : pystr) : Q :=
  key_sum (length results) n_queries (enumerate results) k.

Definition ent_key (e : pystr * Q * SearchResult) : pystr := e.1.1.
Definition ent_score (e : pystr * Q * SearchResult) : Q := e.1.2.
Definition ent_rec (e : pystr * Q * SearchResult) : SearchResult := e.2.

Lemma dedupe_fold (seen : gset pystr) (u l : list SearchResult) :
  (fold_left dedupe_step l (seen, u)).2 = u ++ first_occ seen l.
Proof.
  revert seen u; induction l as [|r l IH]; intros seen u; simpl.
  - rewrite app_nil_r. reflexivity.
  - destruct (bool_decide (result_key r ∈ seen)); rewrite IH; [reflexivity|].
    rewrite <- app_assoc. reflexivity.
Qed.

Lemma dedupe_first_occ (l : list SearchResult) : dedupe l = first_occ ∅ l.
Proof. unfold dedupe. rewrite dedupe_fold. reflexivity. Qed.

Lemma first_occ_ext (s1 s2 : gset pystr) (l : list SearchResult) :
  (forall k, k ∈ s1 <-> k ∈ s2) -> first_occ s1 l = first_occ s2 l.
Proof.
  revert s1 s2; induction l as [|r l IH]; intros s1 s2 Hs; simpl; [done|].
  rewrite (bool_decide_ext _ _ (Hs (result_key r))).
  destruct (bool_decide (result_key r ∈ s2)); [apply IH; exact Hs|].
  f_equal. apply IH. intros k. rewrite !elem_of_union, Hs. reflexivity.
Qed.

Lemma first_occ_fresh (seen : gset pystr) (l : list SearchResult) (r : SearchResult) :
  In r (first_occ seen l) -> result_key r ∉ seen.
Proof.
  revert seen; induction l as [|r0 l IH]; intros seen; simpl; [tauto|].
  case_bool_decide as Hin; [apply IH|].
  intros [<-|Hr]; [exact Hin|]. apply IH in Hr. set_solver.
Qed.

Lemma first_occ_nodup (seen : gset pystr) (l : list SearchResult) :
  NoDup (map result_key (first_occ seen l)).
Proof.
  revert seen; induction l as [|r0 l IH]; intros seen; simpl; [constructor|].
  case_bool_decide as Hin; [apply IH|]. simpl. apply NoDup_cons. split; [|apply IH].
  intros Hk. apply list_elem_of_In, in_map_iff in Hk as (r' & Heq & Hr').
  apply first_occ_fresh in Hr'. rewrite Heq in Hr'. set_solver.
Qed.

Lemma first_occ_sublist (seen : gset pystr) (l : list SearchResult) :
  first_occ seen l `sublist_of` l.
Proof.
  revert seen; induction l as [|r0 l IH]; intros seen; simpl; [constructor|].
  case_bool_decide; [apply sublist_cons|apply sublist_skip]; apply IH.
Qed.

Lemma first_occ_cover (seen : gset pystr) (l : list SearchResult) (r : SearchResult) :
  In r l -> result_key r ∈ seen \/
            exists r', In r' (first_occ seen l) /\ result_key r' = result_key r.
Proof.
  revert seen; induction l as [|r0 l IH]; intros seen Hr; simpl in *; [tauto|].
  case_bool_decide as Hin.
  - destruct Hr as [<-|Hr]; [left; exact Hin|apply IH; exact Hr].
  - destruct Hr as [<-|Hr]; [right; exists r0; split; [left|]; reflexivity|].
    destruct (IH ({[result_key r0]} ∪ seen) Hr) as [Hk|(r' & Hr' & Hk)].
    + apply elem_of_union in Hk as [Hk|Hk].
      * right. exists r0. split; [left; reflexivity|]. apply elem_of_singleton in Hk. done.
      * left. exact Hk.
    + right. exists r'. split; [right; exact Hr'|exact Hk].
Qed.

Lemma first_occ_first (seen : gset pystr) (l : list SearchResult) (r' : SearchResult) :
  In r' (first_occ seen l) ->
  exists l1 l2, l = l1 ++ r' :: l2 /\ Forall (fun x => result_key x <> result_key r') l1.
Proof.
  revert seen; induction l as [|r0 l IH]; intros seen; simpl; [tauto|].
  case_bool_decide as Hin; intros Hr.
  - destruct (IH seen Hr) as (l1 & l2 & -> & Hf). exists (r0 :: l1), l2. split; [done|].
    constructor; [|exact Hf]. apply first_occ_fresh in Hr. intros Heq. rewrite Heq in Hin. done.
  - destruct Hr as [<-|Hr]; [exists [], l; split; [done|constructor]|].
    destruct (IH _ Hr) as (l1 & l2 & -> & Hf). exists (r0 :: l1), l2. split; [done|].
    constructor; [|exact Hf]. apply first_occ_fresh in Hr. intros Heq. rewrite Heq in Hr. set_solver.
Qed.

Lemma sublist_map {A B} (f : A -> B) (l1 l2 : list A) :
  l1 `sublist_of` l2 -> map f l1 `sublist_of` map f l2.
Proof. induction 1; simpl; constructor; assumption. Qed.

Lemma py_take_sublist {A} (n : Z) (l : list A) : py_take n l `sublist_of` l.
Proof. unfold py_take. destruct (0 <=? n); apply sublist_take. Qed.

Lemma py_take_map {A B} (f : A -> B) (n : Z) (l : list A) :
  py_take n (map f l) = map f (py_take n l).
Proof. unfold py_take. rewrite length_map. destruct (0 <=? n); apply firstn_map. Qed.

Lemma map_snd_enumerate_from {A} (k : nat) (l : list A) : map snd (enumerate_from k l) = l.
Proof. revert k; induction l as [|x l IH]; intros k; simpl; [done|]. rewrite IH. done. Qed.

Lemma StronglySorted_impl_in {A} (R R' : A -> A -> Prop) (l : list A) :
  (forall a b, In a l -> In b l -> R a b -> R' a b) -> StronglySorted R l -> StronglySorted R' l.
Proof.
  induction l as [|x l IH]; intros Himp Hs; [constructor|].
  apply StronglySorted_inv in Hs as [Hs Hx]. constructor.
  - apply IH; [|exact Hs]. intros a b Ha Hb. apply Himp; right; assumption.
  - rewrite List.Forall_forall in Hx |- *. intros y Hy.
    apply Himp; [left; reflexivity|right; exact Hy|]. apply Hx. exact Hy.
Qed.

Lemma before_sorted {A} (l : list A) : StronglySorted (before l) l.
Proof.
  induction l as [|x l IH]; [constructor|]. constructor.
  - apply (StronglySorted_impl_in (before l)); [|exact IH].
    intros a b _ _ (i & j & Hi & Hj & Hij). exists (S i), (S j). simpl. split_and!; auto. lia.
  - apply List.Forall_forall. intros y Hy. apply list_elem_of_In, list_elem_of_lookup in Hy as [j Hj].
    exists 0%nat, (S j). simpl. split_and!; auto. lia.
Qed.

Lemma before_map {A B} (f : A -> B) (l : list A) (a b : A) :
  before l a b -> before (map f l) (f a) (f b).
Proof.
  intros (i & j & Hi & Hj & Hij). exists i, j. rewrite !list_lookup_fmap, Hi, Hj. auto.
Qed.

Lemma add_score_absent (k : pystr) (s : Q) (r : SearchResult) (acc : list (pystr * Q * SearchResult)) :
  ~ In k (map ent_key acc) -> add_score k s r acc = acc ++ [(k, s, r)].
Proof.
  induction acc as [|[[k' s'] r'] acc IH]; intros Hk; simpl; [done|].
  case_bool_decide as E; [exfalso; apply Hk; left; exact E|].
  rewrite IH; [done|]. intros Hin. apply Hk. right. exact Hin.
Qed.

Lemma add_score_present (k : pystr) (s : Q) (r : SearchResult) (acc : list (pystr * Q * SearchResult)) :
  In k (map ent_key acc) ->
  map ent_key (add_score k s r acc) = map ent_key acc /\
  map ent_rec (add_score k s r acc) = map ent_rec acc.
Proof.
  induction acc as [|[[k' s'] r'] acc IH]; intros Hk; cbn [add_score]; [done|].
  case_bool_decide as E; [done|].
  destruct Hk as [Hk|Hk]; [unfold ent_key in Hk; simpl in Hk; contradiction|].
  destruct (IH Hk) as [H1 H2]. cbn [map]. rewrite H1, H2. done.
Qed.

Lemma add_score_keys_ok (k : pystr) (s : Q) (r : SearchResult) (acc : list (pystr * Q * SearchResult)) :
  k = result_key r -> Forall (fun e => ent_key e = result_key (ent_rec e)) acc ->
  Forall (fun e => ent_key e = result_key (ent_rec e)) (add_score k s r acc).
Proof.
  intros Hk. induction acc as [|[[k' s'] r'] acc IH]; intros Hf; simpl.
  - constructor; [exact Hk|constructor].
  - apply Forall_cons_iff in Hf as [Hh Ht].
    case_bool_decide; constructor; try exact Hh; try exact Ht. apply IH. exact Ht.
Qed.

Lemma add_score_cases (k : pystr) (s : Q) (r : SearchResult) (acc : list (pystr * Q * SearchResult))
    (e' : pystr * Q * SearchResult) :
  NoDup (map ent_key acc) -> In k (map ent_key acc) -> In e' (add_score k s r acc) ->
  (exists e, In e acc /\ ent_key e = k /\ e' = (k, (ent_score e + s)%Q, ent_rec e)) \/
  (ent_key e' <> k /\ In e' acc).
Proof.
  induction acc as [|[[k' s'] r'] acc IH]; intros Hnd Hk He; simpl in *; [done|].
  apply NoDup_cons in Hnd as [Hk' Hnd]. rewrite list_elem_of_In in Hk'.
  case_bool_decide as E.
  - subst k'. destruct He as [<-|He].
    + left. exists (k, s', r'). split; [left|split]; reflexivity.
    + right. split; [|right; exact He]. intros Hek. apply Hk'.
      change (ent_key (k, s', r')) with k. rewrite <- Hek.
      apply in_map. exact He.
  - destruct Hk as [Hk|Hk]; [unfold ent_key in Hk; simpl in Hk; contradiction|].
    destruct He as [<-|He].
    + right. split; [exact E|left; reflexivity].
    + destruct (IH Hnd Hk He) as [(e & He1 & He2 & He3)|[He1 He2]].
      * left. exists e. split; [right; exact He1|split; assumption].
      * right. split; [exact He1|right; exact He2].
Qed.

Lemma key_sum_app (nr nq : nat) (l : list (nat * SearchResult)) (ir : nat * SearchResult) (k : pystr) :
  (key_sum nr nq (l ++ [ir]) k ==
   key_sum nr nq l k + (if bool_decide (result_key ir.2 = k) then rrf_term nr nq ir.1 else 0))%Q.
Proof.
  induction l as [|x l IH]; unfold key_sum in *; simpl.
  - destruct (bool_decide _); ring.
  - rewrite IH. ring.
Qed.

Lemma key_sum_zero (nr nq : nat) (l : list (nat * SearchResult)) (k : pystr) :
  (forall ir, In ir l -> result_key ir.2 <> k) -> (key_sum nr nq l k == 0)%Q.
Proof.
  induction l as [|x l IH]; intros Hl; unfold key_sum in *; simpl; [reflexivity|].
  rewrite bool_decide_eq_false_2 by (apply Hl; left; reflexivity).
  rewrite IH by (intros ir Hir; apply Hl; right; exact Hir). ring.
Qed.

(** The accumulator after the positions [pre]: one entry per key seen so
    far, each with its record's key and the sum of its terms. *)
Definition rrf_inv (nr nq : nat) (pre : list (nat * SearchResult))
    (acc : list (pystr * Q * SearchResult)) : Prop :=
  NoDup (map ent_key acc) /\
  Forall (fun e => ent_key e = result_key (ent_rec e)) acc /\
  (forall e, In e acc -> (ent_score e == key_sum nr nq pre (ent_key e))%Q) /\
  (forall ir, In ir pre -> In (result_key ir.2) (map ent_key acc)).

Lemma rrf_step_inv (nr nq : nat) (pre : list (nat * SearchResult))
    (acc : list (pystr * Q * SearchResult)) (ir : nat * SearchResult) :
  rrf_inv nr nq pre acc -> rrf_inv nr nq (pre ++ [ir]) (rrf_step nr nq acc ir).
Proof.
  intros (Hnd & Hf & Hsc & Hcov). destruct ir as [i r]. unfold rrf_step.
  fold (rrf_term nr nq i).
  destruct (in_dec (fun x y : pystr => decide (x = y)) (result_key r) (map ent_key acc)) as [Hin|Hout].
  - destruct (add_score_present (result_key r) (rrf_term nr nq i) r acc Hin) as [Hk Hr].
    split_and!.
    + rewrite Hk. exact Hnd.
    + apply add_score_keys_ok; [reflexivity|exact Hf].
    + intros e' He'. destruct (add_score_cases _ _ _ _ _ Hnd Hin He')
        as [(e & He & Hek & ->)|[Hne He]].
      * unfold ent_score, ent_key at 1. simpl. rewrite key_sum_app. simpl.
        rewrite bool_decide_eq_true_2 by reflexivity.
        rewrite (Hsc e He), Hek. reflexivity.
      * rewrite key_sum_app. simpl. rewrite bool_decide_eq_false_2 by congruence.
        rewrite (Hsc e' He). ring.
    + rewrite Hk. intros ir Hir. apply in_app_or in Hir as [Hir|[<-|[]]]; [apply Hcov; exact Hir|exact Hin].
  - rewrite (add_score_absent _ _ _ _ Hout). split_and!.
    + rewrite map_app. apply NoDup_app. split_and!; [exact Hnd| |].
      * intros x Hx Hx'. apply list_elem_of_In in Hx. simpl in Hx'.
        apply list_elem_of_singleton in Hx'. subst x. contradiction.
      * apply NoDup_singleton.
    + apply Forall_app. split; [exact Hf|]. constructor; [reflexivity|constructor].
    + intros e He. apply in_app_or in He as [He|[<-|[]]].
      * rewrite key_sum_app. simpl. rewrite bool_decide_eq_false_2.
        -- rewrite (Hsc e He). ring.
        -- intros Heq. apply Hout. rewrite Heq. apply in_map. exact He.
      * unfold ent_score, ent_key. simpl. rewrite key_sum_app. simpl.
        rewrite bool_decide_eq_true_2 by reflexivity.
        rewrite key_sum_zero; [ring|]. intros ir Hir Heq. apply Hout. rewrite <- Heq.
        apply Hcov. exact Hir.
    + intros ir Hir. rewrite map_app. apply in_or_app.
      apply in_app_or in Hir as [Hir|[<-|[]]]; [left; apply Hcov; exact Hir|right; left; reflexivity].
Qed.

Lemma rrf_fold_inv (nr nq : nat) (l pre : list (nat * SearchResult))
    (acc : list (pystr * Q * SearchResult)) :
  rrf_inv nr nq pre acc -> rrf_inv nr nq (pre ++ l) (fold_left (rrf_step nr nq) l acc).
Proof.
  revert pre acc; induction l as [|x l IH]; intros pre acc Hinv; simpl.
  - rewrite app_nil_r. exact Hinv.
  - replace (pre ++ x :: l) with ((pre ++ [x]) ++ l) by (rewrite <- app_assoc; reflexivity).
    apply IH. apply rrf_step_inv. exact Hinv.
Qed.

Lemma rrf_fold_shape (nr nq : nat) (l : list (nat * SearchResult))
    (acc : list (pystr * Q * SearchResult)) :
  Forall (fun e => ent_key e = result_key (ent_rec e)) acc ->
  map ent_rec (fold_left (rrf_step nr nq) l acc)
  = map ent_rec acc ++ first_occ (list_to_set (map ent_key acc)) (map snd l).
Proof.
  revert acc; induction l as [|[i r] l IH]; intros acc Hf; simpl.
  - rewrite app_nil_r. reflexivity.
  - fold (rrf_term nr nq i).
    assert (Hf' := add_score_keys_ok (result_key r) (rrf_term nr nq i) r acc eq_refl Hf).
    rewrite (IH _ Hf').
    destruct (in_dec (fun x y : pystr => decide (x = y)) (result_key r) (map ent_key acc)) as [Hin|Hout].
    + destruct (add_score_present (result_key r) (rrf_term nr nq i) r acc Hin) as [Hk Hr].
      rewrite Hk, Hr. rewrite bool_decide_eq_true_2; [reflexivity|].
      apply elem_of_list_to_set, list_elem_of_In. exact Hin.
    + rewrite (add_score_absent _ _ _ _ Hout). rewrite bool_decide_eq_false_2.
      * rewrite !map_app, <- app_assoc. simpl. f_equal. f_equal. apply first_occ_ext.
        intros k. rewrite elem_of_list_to_set, elem_of_union, elem_of_singleton,
          elem_of_list_to_set, elem_of_app, list_elem_of_singleton. tauto.
      * rewrite elem_of_list_to_set, list_elem_of_In. exact Hout.
Qed.

(** The dedupe loop of [_do_search] keeps, in stream order, exactly the
    first record of each [collection:path] key: the kept records have
    distinct keys, form a sub-list of the stream, cover every key of the
    stream, and each one is preceded by no record of the same key. *)
Theorem dedupe_first_occurrences (all_results : list SearchResult) :
  let u := dedupe all_results in
  NoDup (map result_key u) /\
  u `sublist_of` all_results /\
  (forall r, In r all_results -> exists r', In r' u /\ result_key r' = result_key r) /\
  (forall r', In r' u -> exists l1 l2, all_results = l1 ++ r' :: l2 /\
                          Forall (fun x => result_key x <> result_key r') l1).
Proof.
  cbv zeta. rewrite dedupe_first_occ. split_and!.
  - apply first_occ_nodup.
  - apply first_occ_sublist.
  - intros r Hr. destruct (first_occ_cover ∅ all_results r Hr) as [Hk|Hk]; [set_solver|exact Hk].
  - intros r' Hr'. apply (first_occ_first ∅). exact Hr'.
Qed.

(** [_rrf_merge] with at least one query returns the first [limit] records
    of a ranking of the deduplicated stream (one record per key, the first
    seen, as [dedupe] keeps it), ordered by accumulated RRF score with the
    highest first, records of equal score in first-seen order. *)
Theorem rrf_merge_ranked (results : list SearchResult) (queries : list pystr) (limit : Z) :
  queries <> [] ->
  exists ranked,
    rrf_merge results queries limit = Some (py_take limit ranked) /\
    Permutation ranked (dedupe results) /\
    StronglySorted (fun a b =>
      (rrf_score results (length queries) (result_key b)
         <= rrf_score results (length queries) (result_key a))%Q /\
      ((rrf_score results (length queries) (result_key a)
          == rrf_score results (length queries) (result_key b))%Q ->
       before (dedupe results) a b)) ranked.
Proof.
  intros Hq. destruct queries as [|q0 qs] eqn:Eq; [contradiction|]. rewrite <- Eq.
  set (nr := length results). set (nq := length queries).
  set (acc := fold_left (rrf_step nr nq) (enumerate results) []).
  assert (Hinv : rrf_inv nr nq ([] ++ enumerate results) acc).
  { apply rrf_fold_inv. split_and!; try constructor; intros ? []. }
  simpl in Hinv. destruct Hinv as (_ & Hkeys & Hsc & _).
  assert (Hshape : map ent_rec acc = dedupe results).
  { unfold acc. rewrite rrf_fold_shape by constructor. simpl.
    unfold enumerate. rewrite map_snd_enumerate_from, dedupe_first_occ. reflexivity. }
  exists (map ent_rec (sort_desc ent_score acc)). split_and!.
  - unfold rrf_merge. rewrite Eq. rewrite <- Eq. fold nr nq. fold acc.
    rewrite py_take_map. reflexivity.
  - rewrite <- Hshape. apply Permutation_map. apply sort_desc_perm.
  - apply StronglySorted_map.
    apply (StronglySorted_impl_in (desc_stable ent_score (before acc))).
    + intros a b Ha Hb [Hle Heq].
      apply (Permutation_in _ (sort_desc_perm _ _)) in Ha, Hb.
      rewrite List.Forall_forall in Hkeys.
      unfold rrf_score. fold nr. rewrite <- (Hkeys a Ha), <- (Hkeys b Hb).
      rewrite <- (Hsc a Ha), <- (Hsc b Hb). split; [exact Hle|].
      intros Hab. rewrite <- Hshape. apply before_map. apply Heq. exact Hab.
    + apply sort_desc_sorted. apply before_sorted.
Qed.

End FusionProps.

(** ** More properties of [expand_query] *)
Module ExpandMore.
Import Expand.

Section ExpandMore.
Context `{PyRuntime}.

Lemma expand_hit_after_store (cfg : Config) (client : LLMClient) (query : pystr)
    (count : option Z) (c : gmap pystr exp_entry) (e : exp_entry) (a : pystr) (alts : list pystr) :
  ee_expansions e = a :: alts ->
  (expand_query cfg client query count
     (Some (<[sha256_hex (strip (py_lower query)) := e]> c))).1 = (query :: a :: alts, true).
Proof.
  intros He. unfold expand_query, cache_get. rewrite lookup_insert_eq. simpl. rewrite He.
  reflexivity.
Qed.

Lemma expand_query_stored (cfg : Config) (client : LLMClient) (query : pystr)
    (count : option Z) (c : gmap pystr exp_entry) :
  (expand_query cfg client query count (Some c)).1.1 <> [query] ->
  exists e a alts c0,
    (expand_query cfg client query count (Some c)).2
      = Some (<[sha256_hex (strip (py_lower query)) := e]> c0) /\
    ee_expansions e = a :: alts /\
    (expand_query cfg client query count (Some c)).1.1 = query :: a :: alts.
Proof.
  unfold expand_query, cache_get.
  destruct (c !! sha256_hex (strip (py_lower query))) as [e|] eqn:Ec.
  - destruct (ee_expansions e) as [|a alts] eqn:Ea.
    + destruct (is_available client); simpl; [|tauto].
      destruct (chat client _) as [[|z zs]|]; simpl; try tauto.
      destruct (py_take _ _) as [|a l]; simpl; [tauto|]. intros _.
      eexists _, a, l, _. split_and!; reflexivity.
    + intros _. simpl. eexists _, a, alts, c. split_and!; reflexivity.
  - destruct (is_available client); simpl; [|tauto].
    destruct (chat client _) as [[|z zs]|]; simpl; try tauto.
    destruct (py_take _ _) as [|a l]; simpl; [tauto|]. intros _.
    eexists _, a, l, _. split_and!; reflexivity.
Qed.

(** Warm-up: when a call with a cache returns more than the query alone
    (a hit, or alternatives the model produced and the call stored), the
    next call for the same query with the returned cache is a cache hit
    with the same list, whatever the client and the count. *)
Theorem expand_warm_cache (cfg : Config) (client client' : LLMClient) (query : pystr)
    (count count' : option Z) (c : gmap pystr exp_entry) :
  let r1 := expand_query cfg client query count (Some c) in
  r1.1.1 <> [query] ->
  (expand_query cfg client' query count' r1.2).1 = (r1.1.1, true).
Proof.
  cbv zeta. intros Hne.
  destruct (expand_query_stored cfg client query count c Hne) as (e & a & alts & c0 & H2 & He & H1).
  rewrite H2, H1. apply expand_hit_after_store. exact He.
Qed.

(** [expand_query] touches only its own query's cache row: every other
    row comes back unchanged. *)
Theorem expand_cache_frame (cfg : Config) (client : LLMClient) (query : pystr)
    (count : option Z) (c : gmap pystr exp_entry) (k : pystr) :
  k <> sha256_hex (strip (py_lower query)) ->
  exists c', (expand_query cfg client query count (Some c)).2 = Some c' /\ c' !! k = c !! k.
Proof.
  intros Hk. unfold expand_query, cache_get.
  destruct (c !! sha256_hex (strip (py_lower query))) as [e|] eqn:Ec.
  - destruct (ee_expansions e) as [|a alts] eqn:Ea.
    + destruct (is_available client); simpl;
        [|eexists; split; [reflexivity|]; apply lookup_insert_ne; congruence].
      destruct (chat client _) as [[|z zs]|]; simpl;
        try (eexists; split; [reflexivity|]; apply lookup_insert_ne; congruence).
      destruct (py_take _ _) as [|a l]; simpl;
        eexists; (split; [reflexivity|]); unfold cache_set;
        rewrite ?lookup_insert_ne by congruence; reflexivity.
    + simpl. eexists. split; [reflexivity|]. apply lookup_insert_ne. congruence.
  - destruct (is_available client); simpl; [|eexists; split; reflexivity].
    destruct (chat client _) as [[|z zs]|]; simpl; try (eexists; split; reflexivity).
    destruct (py_take _ _) as [|a l]; simpl;
      eexists; (split; [reflexivity|]); unfold cache_set;
      rewrite ?lookup_insert_ne by congruence; reflexivity.
Qed.

End ExpandMore.
End ExpandMore.

(** ** The two search pipelines *)
Module PipelineProps.
Import Expand Rerank Fusion Pipeline ListFacts SortFacts FusionProps RerankProps.

(** [f"{collection}:{path}"] of a shown record. *)
Definition rr_key (rr : RerankResult) : pystr := rr_collection rr ++ lit ":" ++ rr_path rr.

Definition shown_keys (s : shown) : list pystr :=
  match s with
  | Hits rs => map result_key rs
  | Reranked rs => map rr_key rs
  end.

Lemma length_py_take_le_n {A} (n : Z) (l : list A) :
  0 <= n -> (length (py_take n l) <= Z.to_nat n)%nat.
Proof. intros Hn. unfold py_take. replace (0 <=? n) with true by lia. apply firstn_le_length. Qed.

Lemma length_py_take_le {A} (n : Z) (l : list A) : (length (py_take n l) <= length l)%nat.
Proof. apply sublist_length, py_take_sublist. Qed.

Lemma py_take_nil {A} (n : Z) : py_take n (@nil A) = [].
Proof. unfold py_take. destruct (0 <=? n); apply firstn_nil. Qed.

Lemma py_take_pos_cons {A} (n : Z) (x : A) (l : list A) :
  0 < n -> exists y l', py_take n (x :: l) = y :: l'.
Proof.
  intros Hn. unfold py_take. replace (0 <=? n) with true by lia.
  destruct (Z.to_nat n) eqn:E; [lia|]. simpl. eauto.
Qed.

Lemma nodup_keys_py_take (n : Z) (l : list SearchResult) :
  NoDup (map result_key l) -> NoDup (map result_key (py_take n l)).
Proof. intros Hnd. eapply sublist_NoDup; [exact Hnd|]. apply sublist_map, py_take_sublist. Qed.

Lemma nodup_keys_dedupe (l : list SearchResult) : NoDup (map result_key (dedupe l)).
Proof. rewrite dedupe_first_occ. apply first_occ_nodup. Qed.

Section PipelineProps.
Context `{PyRuntime}.

Lemma length_rerank_out (cfg : Config) (client : LLMClient) (query : pystr)
    (results : list doc) (topk : option Z) (cache : option (gmap pystr rerank_entry)) :
  length (rerank_results cfg client query results topk cache).1.1
  = length (py_take (py_or topk (rerank_topk cfg)) results).
Proof.
  rewrite rerank_results_unfold. cbn [fst].
  rewrite (Permutation_length (sort_desc_perm _ _)), length_map.
  unfold enumerate. apply length_enumerate_from.
Qed.

Lemma map_rr_key_blend (sc : gmap nat Q) (k : nat) (l : list SearchResult) :
  map rr_key (map (blend sc) (enumerate_from k (map to_dict l))) = map result_key l.
Proof. revert k; induction l as [|r l IH]; intros k; simpl; [done|]. rewrite IH. done. Qed.

Lemma rerank_keys_perm (cfg : Config) (client : LLMClient) (query : pystr)
    (results : list SearchResult) (topk : option Z) (cache : option (gmap pystr rerank_entry)) :
  Permutation (map rr_key (rerank_results cfg client query (map to_dict results) topk cache).1.1)
              (map result_key (py_take (py_or topk (rerank_topk cfg)) results)).
Proof.
  rewrite rerank_results_unfold. cbn [fst]. rewrite <- (map_rr_key_blend
    (score_uncached client query (sha256_hex (strip (py_lower query)))
       (py_take (py_or topk (rerank_topk cfg)) (map to_dict results))
       (fold_left (lookup_step cache (sha256_hex (strip (py_lower query))))
          (enumerate (py_take (py_or topk (rerank_topk cfg)) (map to_dict results)))
          (∅, 0, [])).1.1
       (fold_left (lookup_step cache (sha256_hex (strip (py_lower query))))
          (enumerate (py_take (py_or topk (rerank_topk cfg)) (map to_dict results)))
          (∅, 0, [])).2 cache).1 0).
  rewrite <- py_take_map. apply Permutation_map. apply sort_desc_perm.
Qed.

Lemma rrf_merge_some (results : list SearchResult) (queries : list pystr) (limit : Z) :
  queries <> [] -> exists l, rrf_merge results queries limit = Some l.
Proof. destruct queries; [contradiction|]. intros _. eexists. reflexivity. Qed.

(** [_do_search] never shows more than [limit] results (for a
    non-negative [limit]), never more than 20 when it reranks (it passes
    [topk=20]), and never two results with the same [collection:path]
    key. *)
Theorem do_search_bounds (cfg : Config) (client : LLMClient) (search : searcher)
    (query : pystr) (limit : Z) (use_expand use_rerank : bool)
    (ecache : gmap pystr exp_entry) (rcache : gmap pystr rerank_entry) :
  let s := (do_search cfg client search query limit use_expand use_rerank ecache rcache).1.1.2 in
  (0 <= limit -> (shown_length s <= Z.to_nat limit)%nat) /\
  (use_rerank = true -> (shown_length s <= 20)%nat) /\
  NoDup (shown_keys s).
Proof.
  cbv zeta. unfold do_search.
  destruct (if use_expand then _ else _) as [queries ec].
  set (n := if use_rerank then limit * 2 else limit).
  remember (py_take n (dedupe (flat_map (fun q => search q n) queries))) as res eqn:Hres.
  assert (Hnd : NoDup (map result_key res)) by (rewrite Hres; apply nodup_keys_py_take, nodup_keys_dedupe).
  destruct use_rerank; destruct res as [|r rs].
  - cbn [fst snd]. rewrite py_take_nil. cbn. split_and!; [intros; lia|intros; lia|constructor].
  - destruct (rerank_results cfg client query (map to_dict (r :: rs)) (Some 20) (Some rcache))
      as [[rk hits] rc] eqn:Hrr.
    pose proof (length_rerank_out cfg client query (map to_dict (r :: rs)) (Some 20) (Some rcache)) as Hlen.
    pose proof (rerank_keys_perm cfg client query (r :: rs) (Some 20) (Some rcache)) as Hperm.
    rewrite Hrr in Hlen, Hperm. cbn [fst] in Hlen, Hperm.
    assert (Hle20 : (length rk <= 20)%nat).
    { rewrite Hlen. apply (length_py_take_le_n 20). lia. }
    destruct rk as [|x xs].
    + exfalso. simpl in Hlen. discriminate Hlen.
    + cbn [fst snd shown_length shown_keys]. split_and!.
      * apply length_py_take_le_n.
      * intros _. etransitivity; [apply length_py_take_le|exact Hle20].
      * eapply sublist_NoDup; [|apply sublist_map, py_take_sublist].
        apply (NoDup_Permutation_proper _ _ Hperm).
        apply nodup_keys_py_take. exact Hnd.
  - cbn. rewrite py_take_nil. split_and!; [intros; simpl; lia|discriminate|constructor].
  - cbn [fst snd shown_length shown_keys]. split_and!; [apply length_py_take_le_n|discriminate|].
    apply nodup_keys_py_take. exact Hnd.
Qed.

(** [cmd_search] always returns (its [_rrf_merge] call never sees an empty
    query list), and with a non-negative [limit] it shows at most [limit]
    results, provided that, under [--rerank], the effective [topk] is
    positive. *)
Theorem cmd_search_bounds (cfg : Config) (client : LLMClient) (search : searcher)
    (query : pystr) (limit : Z) (use_expand use_rerank use_cache : bool)
    (expand_cnt topk : Z) (ecache : gmap pystr exp_entry) (rcache : gmap pystr rerank_entry) :
  exists qs hit s hits ec rc,
    cmd_search cfg client search query limit use_expand use_rerank use_cache expand_cnt topk
               ecache rcache = Some ((qs, hit, s, hits), ec, rc) /\
    (0 <= limit -> (use_rerank = true -> 0 < py_or (Some topk) (rerank_topk cfg)) ->
     (shown_length s <= Z.to_nat limit)%nat).
Proof.
  unfold cmd_search.
  destruct (if use_expand then _ else _) as [[queries hit] ec].
  set (n := if use_rerank then limit * 2 else limit).
  set (all := flat_map (fun q => search q n) queries).
  destruct (1 <? length queries)%nat eqn:Hlq.
  - assert (Hq : queries <> []) by (destruct queries; [discriminate|discriminate]).
    destruct (rrf_merge_some all queries n Hq) as [res Hres]. rewrite Hres.
    destruct use_rerank; destruct res as [|r rs].
    + do 6 eexists. split; [reflexivity|]. intros. cbn. rewrite py_take_nil. simpl. lia.
    + destruct (rerank_results cfg client query (map to_dict (r :: rs)) (Some topk)
                  (if use_cache then Some rcache else None)) as [[rk hits] rc] eqn:Hrr.
      pose proof (length_rerank_out cfg client query (map to_dict (r :: rs)) (Some topk)
                    (if use_cache then Some rcache else None)) as Hlen.
      rewrite Hrr in Hlen. cbn [fst] in Hlen.
      destruct rk as [|x xs].
      * do 6 eexists. split; [reflexivity|]. intros _ Ht. exfalso.
        destruct (py_take_pos_cons _ (to_dict r) (map to_dict rs) (Ht eq_refl)) as (y & l' & Hy).
        cbn [map] in Hlen. rewrite Hy in Hlen. discriminate Hlen.
      * do 6 eexists. split; [reflexivity|]. intros Hl _. apply length_py_take_le_n. exact Hl.
    + do 6 eexists. split; [reflexivity|]. intros. cbn. rewrite py_take_nil. simpl. lia.
    + do 6 eexists. split; [reflexivity|]. intros Hl _. apply length_py_take_le_n. exact Hl.
  - set (res := py_take n all).
    destruct use_rerank; destruct res as [|r rs].
    + do 6 eexists. split; [reflexivity|]. intros. cbn. rewrite py_take_nil. simpl. lia.
    + destruct (rerank_results cfg client query (map to_dict (r :: rs)) (Some topk)
                  (if use_cache then Some rcache else None)) as [[rk hits] rc] eqn:Hrr.
      pose proof (length_rerank_out cfg client query (map to_dict (r :: rs)) (Some topk)
                    (if use_cache then Some rcache else None)) as Hlen.
      rewrite Hrr in Hlen. cbn [fst] in Hlen.
      destruct rk as [|x xs].
      * do 6 eexists. split; [reflexivity|]. intros _ Ht. exfalso.
        destruct (py_take_pos_cons _ (to_dict r) (map to_dict rs) (Ht eq_refl)) as (y & l' & Hy).
        cbn [map] in Hlen. rewrite Hy in Hlen. discriminate Hlen.
      * do 6 eexists. split; [reflexivity|]. intros Hl _. apply length_py_take_le_n. exact Hl.
    + do 6 eexists. split; [reflexivity|]. intros. cbn. rewrite py_take_nil. simpl. lia.
    + do 6 eexists. split; [reflexivity|]. intros Hl _. apply length_py_take_le_n. exact Hl.
Qed.

End PipelineProps.
End PipelineProps.

(** ** The code evaluated on concrete inputs *)
Module Examples.
Import Concrete Expand Rerank Fusion SpecModel.
Local Open Scope string_scope.

(** [C3] (as amended) Candidates A (12.0), B (8.0), C (3.0) at ranks 1-3,
    model relevances 9, 4, 2: all three ranks fall in the 1-3 band, weight
    0.75, so the blended scores are A = 0.825, B = 0.5, C = 0.2, and the
    order stays A, B, C. *)
Theorem rerank_example_blend :
  let out := (rerank_results default_config rerank_client coffee
                [cand_A; cand_B; cand_C] None None).1.1 in
  map rr_path out = map (fun d => get (d_path d) []) [cand_A; cand_B; cand_C] /\
  map rr_rerank_score out = [9; 4; 2]%Q /\
  Forall2 Qeq (map rr_blended_score out) [0.825; 0.5; 0.2]%Q.
Proof.
  vm_compute. split; [reflexivity|]. split; [reflexivity|].
  repeat constructor.
Qed.

(** [C3] The claimed B = 0.48 (weight 0.60 for rank 2) is not what the
    code computes. *)
Lemma rerank_example_blend_claimed_false :
  let out := (rerank_results default_config rerank_client coffee
                [cand_A; cand_B; cand_C] None None).1.1 in
  ~ Forall2 Qeq (map rr_blended_score out) [0.825; 0.48; 0.2]%Q.
Proof.
  vm_compute. intros H.
  inversion H as [|? ? ? ? _ H1]; subst.
  inversion H1 as [|? ? ? ? HB _]; subst.
  vm_compute in HB. discriminate.
Qed.

(** [C2] witness: the first record of the example above. *)
Lemma rerank_blended_score_witness :
  let out := (rerank_results default_config rerank_client coffee
                [cand_A; cand_B; cand_C] None None).1.1 in
  In (hd dummy_rr out) out /\
  exists i d,
    py_take (py_or None (rerank_topk default_config)) [cand_A; cand_B; cand_C] !! i = Some d /\
    rr_original_rank (hd dummy_rr out) = Z.of_nat i + 1 /\
    rr_original_score (hd dummy_rr out) = get (d_score d) 0%Q /\
    (rr_blended_score (hd dummy_rr out)
     == spec_blend (rr_original_rank (hd dummy_rr out)) (rr_original_score (hd dummy_rr out))
                   (rr_rerank_score (hd dummy_rr out)))%Q.
Proof.
  cbv zeta.
  assert (Hin : In (hd dummy_rr (rerank_results default_config rerank_client coffee
                                   [cand_A; cand_B; cand_C] None None).1.1)
                   (rerank_results default_config rerank_client coffee
                      [cand_A; cand_B; cand_C] None None).1.1)
    by (vm_compute; left; reflexivity).
  split; [exact Hin|].
  exact (RerankProps.rerank_blended_score default_config rerank_client coffee
           [cand_A; cand_B; cand_C] None None _ Hin).
Defined.

(** [C4] With two queries, the hits "a:b"/"c" and "a"/"b:c" are distinct
    (collection, path) identities, but [_rrf_merge] keys them by
    [f"{collection}:{path}"] = "a:b:c" for both: they are merged into one
    output record, the first. *)
Theorem rrf_merge_key_collision :
  rrf_merge [hit_ab_c; hit_a_bc] [lit "coffee"; lit "coffee maker"] 10 = Some [hit_ab_c].
Proof. vm_compute. reflexivity. Qed.

(** [C5] witness: the server is down. *)
Lemma rerank_neutral_fallback_witness :
  is_available offline = false /\
  let candidates := py_take (py_or None (rerank_topk default_config)) [cand_A; cand_B; cand_C] in
  let out := (rerank_results default_config offline coffee [cand_A; cand_B; cand_C] None None).1.1 in
  length out = length candidates /\
  forall i d, candidates !! i = Some d ->
    cached_score None (sha256_hex (strip (py_lower coffee))) d = None ->
    exists rr, In rr out /\ rr_original_rank rr = Z.of_nat i + 1 /\ rr_rerank_score rr = 5.0%Q.
Proof.
  split; [reflexivity|].
  exact (RerankProps.rerank_neutral_fallback default_config offline coffee
           [cand_A; cand_B; cand_C] None None (or_introl eq_refl)).
Defined.

(** [C6] A reply of decimal scores "7.5" and "8.0", one per line: their
    last numeric tokens are 7.5 and 8.0, both in [0,10], but the
    [.replace(".", " ")] meant for index prefixes splits them into the tokens
    7, 5 and 8, 0, so [_get_llm_scores] returns the scores 5 and 0. *)
Theorem rerank_parse_decimal_misread :
  let s := get_llm_scores (replying (lines ["7.5"; "8.0"])) coffee [cand_A; cand_B] in
  s = Some [5; 0]%Q /\ s <> Some [7.5; 8.0]%Q.
Proof. vm_compute. split; [reflexivity|discriminate]. Qed.

(** Witness of [get_llm_scores_parse]. *)
Lemma get_llm_scores_parse_witness :
  is_available rerank_client = true /\
  (forall req, chat rerank_client req = Some (lines ["9"; "4"; "2"])) /\
  lines ["9"; "4"; "2"] <> [] /\
  exists scores,
    get_llm_scores rerank_client coffee [cand_A; cand_B; cand_C] = Some scores /\
    length scores = length [cand_A; cand_B; cand_C] /\
    (forall j, (j < length [cand_A; cand_B; cand_C])%nat ->
       scores !! j = Some (get (parse_scores (lines ["9"; "4"; "2"]) !! j) 5.0%Q)) /\
    parse_scores (lines ["9"; "4"; "2"])
      = flat_map (fun l => match line_score l with Some q => [q] | None => [] end)
                 (split_on 10 (strip (lines ["9"; "4"; "2"]))) /\
    (forall line, (forall t, In t (score_tokens line) -> py_float t <> None) ->
       line_score line
       = last_some (map (fun t => match py_float t with Some v => in_range v | None => None end)
                        (score_tokens line))).
Proof.
  split; [reflexivity|]. split; [intros; reflexivity|]. split; [discriminate|].
  exact (ParseProps.get_llm_scores_parse rerank_client coffee [cand_A; cand_B; cand_C]
           (lines ["9"; "4"; "2"]) eq_refl (fun _ => eq_refl) ltac:(discriminate)).
Defined.

(** [C7] A two-character reply line such as "AI" is dropped by the
    [len(line) > 2] guard, although it is neither blank nor the query. *)
Lemma expand_parse_claimed_false :
  let r := (expand_query default_config (replying (lines ["AI"; "espresso"]))
              (lit "coffee") None None).1.1 in
  r = [lit "coffee"; lit "espresso"] /\ r <> [lit "coffee"; lit "AI"; lit "espresso"].
Proof. vm_compute. split; [reflexivity|discriminate]. Qed.

Definition expansion_reply : pystr :=
  lines ["1. Pour over coffee"; "- french press"; ""; "COFFEE BREWING"; "AI"; "2) cold brew"].

(** [C7] witness *)
Lemma expand_parse_amended_witness :
  (forall c e, (None : option (gmap pystr exp_entry)) = Some c ->
     c !! sha256_hex (strip (py_lower coffee)) = Some e -> ee_expansions e = []) /\
  is_available (replying expansion_reply) = true /\
  (forall req, chat (replying expansion_reply) req = Some expansion_reply) /\
  expansion_reply <> [] /\
  (forall l, In l (split_on 10 (strip expansion_reply)) ->
     match strip l with c :: _ => ~ In c [8226; 226; 8364; 162] | [] => True end) /\
  (expand_query default_config (replying expansion_reply) coffee None None).1
  = (coffee :: py_take (py_or None (expand_count default_config))
       (flat_map (fun l => match spec_expansion_line coffee l with Some x => [x] | None => [] end)
                 (split_on 10 (strip expansion_reply))), false).
Proof.
  assert (Hmiss : forall c e, (None : option (gmap pystr exp_entry)) = Some c ->
            c !! sha256_hex (strip (py_lower coffee)) = Some e -> ee_expansions e = [])
    by discriminate.
  assert (Hlines : forall l, In l (split_on 10 (strip expansion_reply)) ->
            match strip l with c :: _ => ~ In c [8226; 226; 8364; 162] | [] => True end).
  { intros l Hl. vm_compute in Hl.
    repeat destruct Hl as [<-|Hl]; try contradiction; vm_compute; try exact I;
      intros Hc; repeat destruct Hc as [Hc|Hc]; try discriminate; contradiction. }
  split; [exact Hmiss|]. split; [reflexivity|]. split; [intros; reflexivity|].
  split; [discriminate|]. split; [exact Hlines|].
  exact (ParseProps.expand_parse_amended default_config (replying expansion_reply) coffee
           None None expansion_reply Hmiss eq_refl (fun _ => eq_refl) ltac:(discriminate) Hlines).
Defined.

(** [C8] witness: a populated cache, two different clients and counts. *)
Lemma expand_cache_idempotent_witness :
  coffee_cache !! sha256_hex (strip (py_lower coffee)) = Some coffee_entry /\
  ee_expansions coffee_entry <> [] /\
  let '(r1, c1) := expand_query default_config offline coffee None (Some coffee_cache) in
  let '(r2, _) := expand_query default_config rerank_client coffee (Some 5) c1 in
  r1 = (coffee :: ee_expansions coffee_entry, true) /\ r2 = r1 /\ r2.2 = true.
Proof.
  assert (Hhit : coffee_cache !! sha256_hex (strip (py_lower coffee)) = Some coffee_entry)
    by (vm_compute; reflexivity).
  split; [exact Hhit|]. split; [discriminate|].
  exact (ExpandProps.expand_cache_idempotent default_config offline rerank_client coffee
           None (Some 5) coffee_cache coffee_entry Hhit ltac:(discriminate)).
Defined.

(** [C10] witness: [count = 1], yet two cached alternatives come back. *)
Lemma expand_hit_ignores_count_witness :
  coffee_cache !! sha256_hex (strip (py_lower coffee)) = Some coffee_entry /\
  ee_expansions coffee_entry <> [] /\
  (expand_query default_config rerank_client coffee (Some 1) (Some coffee_cache)).1
  = (coffee :: ee_expansions coffee_entry, true) /\
  (length (expand_query default_config rerank_client coffee (Some 1%Z) (Some coffee_cache)).1.1
   = 3)%nat.
Proof.
  assert (Hhit : coffee_cache !! sha256_hex (strip (py_lower coffee)) = Some coffee_entry)
    by (vm_compute; reflexivity).
  assert (Hne : ee_expansions coffee_entry <> []) by discriminate.
  pose proof (ExpandProps.expand_hit_ignores_count default_config rerank_client coffee
                (Some 1) coffee_cache coffee_entry Hhit Hne) as Hr.
  split; [exact Hhit|]. split; [exact Hne|]. split; [exact Hr|].
  rewrite Hr. reflexivity.
Defined.

(** [C9] With the server down, the neutral score 5.0 is used for blending
    but not written: the empty cache stays empty. *)
Lemma rerank_fallback_not_cached :
  let r := rerank_results default_config offline coffee [cand_A] None (Some ∅) in
  map rr_rerank_score r.1.1 = [5.0]%Q /\ r.2 = Some ∅.
Proof. vm_compute. split; reflexivity. Qed.

(** [C9] witness: both cases, on an empty cache. *)
Lemma rerank_cache_writes_witness :
  is_available offline = false /\
  (rerank_results default_config offline coffee [cand_A; cand_B] None (Some ∅)).2 = Some ∅ /\
  is_available rerank_client = true /\
  (forall req, chat rerank_client req = Some (lines ["9"; "4"; "2"])) /\
  lines ["9"; "4"; "2"] <> [] /\
  exists c', (rerank_results default_config rerank_client coffee [cand_A; cand_B] None (Some ∅)).2
             = Some c'.
Proof.
  pose proof (RerankProps.rerank_cache_writes default_config offline coffee
                [cand_A; cand_B] None ∅) as [Hoff _].
  pose proof (RerankProps.rerank_cache_writes default_config rerank_client coffee
                [cand_A; cand_B] None ∅) as [_ Hon].
  split; [reflexivity|]. split; [apply Hoff; left; reflexivity|].
  split; [reflexivity|]. split; [intros; reflexivity|]. split; [discriminate|].
  destruct (Hon (lines ["9"; "4"; "2"]) eq_refl (fun _ => eq_refl) ltac:(discriminate))
    as (c' & Hc' & _). exists c'. exact Hc'.
Defined.

End Examples.

(** ** Concrete instances of the further properties *)
Module ExtraExamples.
Import Concrete Expand Rerank Fusion Pipeline.
Local Open Scope string_scope.

Definition coffee_hash : pystr := digest_stub (strip (ascii_lower coffee)).

(** A rerank cache holding score 7 for A, and one holding 7 and 3 for A
    and B, under the query "coffee brewing". *)
Definition rcache_A : gmap pystr rerank_entry :=
  Rerank.cache_set ∅ coffee_hash (doc_hash cand_A) 7.

Definition rcache_AB : gmap pystr rerank_entry :=
  Rerank.cache_set rcache_A coffee_hash (doc_hash cand_B) 3.

(** A model that answers two alternative phrasings. *)
Definition expand_client : LLMClient :=
  replying (lines ["how to brew coffee"; "coffee making methods"]).

Lemma rcache_A_in_range : RerankMore.cache_scores_in_range (Some rcache_A).
Proof.
  intros c k e [= <-] Hk. unfold rcache_A, Rerank.cache_set in Hk.
  apply lookup_insert_Some in Hk as [[_ <-]|[_ Hk]].
  - simpl. split; unfold Qle; simpl; lia.
  - rewrite lookup_empty in Hk. discriminate.
Qed.

(** Cached A keeps its score 7 though the model would answer 9. *)
Lemma rerank_uses_cached_score_witness :
  py_take (py_or None (rerank_topk default_config)) [cand_A; cand_B] !! 0%nat = Some cand_A /\
  cached_score (Some rcache_A) coffee_hash cand_A = Some 7%Q /\
  exists rr, In rr (rerank_results default_config rerank_client coffee [cand_A; cand_B]
                      None (Some rcache_A)).1.1 /\
    rr_original_rank rr = Z.of_nat 0 + 1 /\ rr_rerank_score rr = 7%Q.
Proof.
  split; [vm_compute; reflexivity|]. split; [vm_compute; reflexivity|].
  apply (RerankMore.rerank_uses_cached_score default_config rerank_client coffee
           [cand_A; cand_B] None (Some rcache_A) 0 cand_A 7);
    vm_compute; reflexivity.
Defined.

(** A and B both cached: the live model and the offline one agree. *)
Lemma rerank_all_cached_no_model_witness :
  (forall d, In d (py_take (py_or None (rerank_topk default_config)) [cand_A; cand_B]) ->
     RerankMore.is_cached (Some rcache_AB) coffee_hash d = true) /\
  rerank_results default_config rerank_client coffee [cand_A; cand_B] None (Some rcache_AB)
  = rerank_results default_config offline coffee [cand_A; cand_B] None (Some rcache_AB) /\
  (rerank_results default_config rerank_client coffee [cand_A; cand_B] None
     (Some rcache_AB)).2 = Some rcache_AB.
Proof.
  assert (Hall : forall d, In d (py_take (py_or None (rerank_topk default_config)) [cand_A; cand_B]) ->
            RerankMore.is_cached (Some rcache_AB) coffee_hash d = true).
  { intros d Hd. vm_compute in Hd. destruct Hd as [<-|[<-|[]]]; vm_compute; reflexivity. }
  split; [exact Hall|].
  exact (RerankMore.rerank_all_cached_no_model default_config rerank_client offline coffee
           [cand_A; cand_B] None (Some rcache_AB) Hall).
Defined.

(** A first call on an empty cache, then a second one with the model
    offline. *)
Lemma rerank_warm_cache_witness :
  is_available rerank_client = true /\
  (forall req, chat rerank_client req = Some (lines ["9"; "4"; "2"])) /\
  lines ["9"; "4"; "2"] <> [] /\
  (forall i j d d', py_take (py_or None (rerank_topk default_config)) [cand_A; cand_B] !! i = Some d ->
     py_take (py_or None (rerank_topk default_config)) [cand_A; cand_B] !! j = Some d' -> i <> j ->
     make_key coffee_hash (doc_hash d) <> make_key coffee_hash (doc_hash d')) /\
  let r1 := rerank_results default_config rerank_client coffee [cand_A; cand_B] None (Some ∅) in
  let r2 := rerank_results default_config offline coffee [cand_A; cand_B] None r1.2 in
  r2.1.1 = r1.1.1 /\ r2.1.2 = Z.of_nat (length (py_take (py_or None (rerank_topk default_config))
                                                     [cand_A; cand_B])) /\ r2.2 = r1.2.
Proof.
  assert (Hkeys : forall i j d d', py_take (py_or None (rerank_topk default_config)) [cand_A; cand_B] !! i = Some d ->
     py_take (py_or None (rerank_topk default_config)) [cand_A; cand_B] !! j = Some d' -> i <> j ->
     make_key coffee_hash (doc_hash d) <> make_key coffee_hash (doc_hash d')).
  { intros i j d d' Hi Hj Hij.
    destruct i as [|[|i]]; destruct j as [|[|j]]; vm_compute in Hi, Hj; try discriminate;
      try lia; injection Hi as <-; injection Hj as <-; vm_compute; intros Heq; discriminate Heq. }
  split; [reflexivity|]. split; [intros; reflexivity|]. split; [discriminate|].
  split; [exact Hkeys|].
  exact (RerankMore.rerank_warm_cache default_config rerank_client offline coffee
           [cand_A; cand_B] None ∅ (lines ["9"; "4"; "2"]) eq_refl (fun _ => eq_refl)
           ltac:(discriminate) Hkeys).
Defined.

(** The model's answer for A, B and C: three scores in range. *)
Lemma get_llm_scores_bounds_witness :
  get_llm_scores rerank_client coffee [cand_A; cand_B; cand_C]
    = Some (pad_scores (parse_scores (lines ["9"; "4"; "2"])) 3) /\
  length (pad_scores (parse_scores (lines ["9"; "4"; "2"])) 3) = length [cand_A; cand_B; cand_C] /\
  Forall (fun q => (0 <= q <= 10)%Q) (pad_scores (parse_scores (lines ["9"; "4"; "2"])) 3).
Proof.
  assert (Hs : get_llm_scores rerank_client coffee [cand_A; cand_B; cand_C]
                 = Some (pad_scores (parse_scores (lines ["9"; "4"; "2"])) 3))
    by (vm_compute; reflexivity).
  split; [exact Hs|].
  exact (RerankMore.get_llm_scores_bounds rerank_client coffee [cand_A; cand_B; cand_C] _ Hs).
Defined.

(** A, B and C against a cache holding A's score. *)
Lemma rerank_scores_bounded_witness :
  RerankMore.cache_scores_in_range (Some rcache_A) /\
  Forall (fun d => (0 <= get (d_score d) 0%Q)%Q) [cand_A; cand_B; cand_C] /\
  Forall (fun rr => (0 <= rr_rerank_score rr <= 10)%Q /\ (0 <= rr_blended_score rr <= 1)%Q)
    (rerank_results default_config rerank_client coffee [cand_A; cand_B; cand_C] None
       (Some rcache_A)).1.1 /\
  RerankMore.cache_scores_in_range
    (rerank_results default_config rerank_client coffee [cand_A; cand_B; cand_C] None
       (Some rcache_A)).2.
Proof.
  assert (Hres : Forall (fun d => (0 <= get (d_score d) 0%Q)%Q) [cand_A; cand_B; cand_C]).
  { apply List.Forall_forall. intros d Hd. destruct Hd as [<-|[<-|[<-|[]]]]; unfold Qle; simpl; lia. }
  split; [exact rcache_A_in_range|]. split; [exact Hres|].
  exact (RerankMore.rerank_scores_bounded default_config rerank_client coffee
           [cand_A; cand_B; cand_C] None (Some rcache_A) rcache_A_in_range Hres).
Defined.

(** The row "other" is no candidate's: it is left alone. *)
Lemma rerank_cache_frame_witness :
  (forall d, In d (py_take (py_or None (rerank_topk default_config)) [cand_A; cand_B]) ->
     lit "other" <> make_key coffee_hash (doc_hash d)) /\
  exists c', (rerank_results default_config rerank_client coffee [cand_A; cand_B] None
                (Some rcache_A)).2 = Some c' /\ c' !! lit "other" = rcache_A !! lit "other".
Proof.
  assert (Hk : forall d, In d (py_take (py_or None (rerank_topk default_config)) [cand_A; cand_B]) ->
     lit "other" <> make_key coffee_hash (doc_hash d)).
  { intros d Hd. vm_compute in Hd. destruct Hd as [<-|[<-|[]]]; vm_compute; intros Heq; discriminate Heq. }
  split; [exact Hk|].
  exact (RerankMore.rerank_cache_frame default_config rerank_client coffee [cand_A; cand_B]
           None rcache_A (lit "other") Hk).
Defined.

(** The colliding hits of [C4] under two queries. *)
Lemma rrf_merge_ranked_witness :
  [coffee; coffee] <> [] /\
  exists ranked,
    rrf_merge [hit_ab_c; hit_a_bc] [coffee; coffee] 10 = Some (py_take 10 ranked) /\
    Permutation ranked (dedupe [hit_ab_c; hit_a_bc]) /\
    StronglySorted (fun a b =>
      (FusionProps.rrf_score [hit_ab_c; hit_a_bc] (length [coffee; coffee]) (result_key b)
         <= FusionProps.rrf_score [hit_ab_c; hit_a_bc] (length [coffee; coffee]) (result_key a))%Q /\
      ((FusionProps.rrf_score [hit_ab_c; hit_a_bc] (length [coffee; coffee]) (result_key a)
          == FusionProps.rrf_score [hit_ab_c; hit_a_bc] (length [coffee; coffee]) (result_key b))%Q ->
       FusionProps.before (dedupe [hit_ab_c; hit_a_bc]) a b)) ranked.
Proof.
  split; [discriminate|].
  apply (FusionProps.rrf_merge_ranked [hit_ab_c; hit_a_bc] [coffee; coffee] 10). discriminate.
Defined.

(** A first call that asks the model, then one with the model offline
    and another count. *)
Lemma expand_warm_cache_witness :
  (expand_query default_config expand_client coffee None (Some ∅)).1.1 <> [coffee] /\
  (expand_query default_config offline coffee (Some 1)
     (expand_query default_config expand_client coffee None (Some ∅)).2).1
  = ((expand_query default_config expand_client coffee None (Some ∅)).1.1, true).
Proof.
  assert (Hne : (expand_query default_config expand_client coffee None (Some ∅)).1.1 <> [coffee]).
  { vm_compute. intros Heq. discriminate Heq. }
  split; [exact Hne|].
  exact (ExpandMore.expand_warm_cache default_config expand_client offline coffee None
           (Some 1) ∅ Hne).
Defined.

(** The row "other" of the cache of [C8] is left alone. *)
Lemma expand_cache_frame_witness :
  lit "other" <> digest_stub (strip (ascii_lower coffee)) /\
  exists c', (expand_query default_config expand_client coffee None (Some coffee_cache)).2
             = Some c' /\ c' !! lit "other" = coffee_cache !! lit "other".
Proof.
  assert (Hk : lit "other" <> digest_stub (strip (ascii_lower coffee))).
  { vm_compute. intros Heq. discriminate Heq. }
  split; [exact Hk|].
  exact (ExpandMore.expand_cache_frame default_config expand_client coffee None coffee_cache
           (lit "other") Hk).
Defined.

End ExtraExamples.
